(** * scrollsguide: name resolution over the lazily loaded scroll catalog

    A shallow embedding of [src/communication/scrollsguide.py]:
    the exception classes, the [Scroll] wrapper, the class-level cache
    [_scrolls_db], its population by [__load_scrolls] and the lookup
    [get_by_name] (exact match, then fuzzy search with a threshold and
    grouping of the top scores).

    Python values are modelled as follows.
    - [str] is [string], a sequence of 8-bit characters read as the code
      points U+0000 to U+00FF; [lower] is [str.lower] on them (the capital
      letters of ASCII and of Latin-1 go to their small letters, and the
      result stays within these code points).
    - [dict] is an insertion-ordered association list with unique keys
      ([dict_set] overwrites in place, or appends a new key at the end), since
      the order of [keys()] and [items()] decides the order of the names an
      exception carries.
    - What [json.loads] returns is a [json] value.
    - Raising is a [result]: [Ok v] or [Raise e].
    - [fuzz.partial_ratio] belongs to the fuzzywuzzy package; it is a
      parameter of the development, an integer-valued function of two
      strings (the package returns an [int] between 0 and 100). *)

From Stdlib Require Import List String Ascii ZArith QArith Bool Lia Arith.
Import ListNotations.

Local Open Scope string_scope.
Local Open Scope Z_scope.

Set Implicit Arguments.

(** ** Results and exceptions *)

(** Values [json.loads] can return.  Numbers are kept as rationals. *)
#[local] Unset Elimination Schemes.
Inductive json : Type :=
| JNull
| JBool (b : bool)
| JNum (q : Q)
| JStr (s : string)
| JArr (items : list json)
| JObj (members : list (string * json)).
#[local] Set Elimination Schemes.

(** The exceptions the module can raise.  [ClientError] stands for any
    failure of the HTTP request or of reading its body, [JSONDecodeError]
    for [json.loads] rejecting the text; [ScrollNotFound] and
    [MultipleScrollsFound] are the module's own classes. *)
Inductive exn : Type :=
| ClientError
| JSONDecodeError
| AttributeError
| TypeError
| KeyError (key : string)
| ValueError
| ScrollNotFound
| MultipleScrollsFound (scrolls : list json) (search_term : string).

Inductive result (A : Type) : Type :=
| Ok (a : A)
| Raise (e : exn).

Arguments Ok {A} a.
Arguments Raise {A} e.

Definition bind {A B : Type} (r : result A) (k : A -> result B) : result B :=
  match r with
  | Ok a => k a
  | Raise e => Raise e
  end.

Declare Scope py_scope.
Delimit Scope py_scope with py.
Notation "x <- r ;; k" := (bind r (fun x => k))
  (at level 100, r at next level, right associativity) : py_scope.
Local Open Scope py_scope.

(** ** Strings *)

(** [c.lower()] on one character: 'A'..'Z' map to 'a'..'z', and the
    capital letters of Latin-1, U+00C0 to U+00DE without the multiplication
    sign U+00D7, map to the small ones 32 places up. *)
Definition lower_ascii (c : ascii) : ascii :=
  let n := nat_of_ascii c in
  if ((65 <=? n) && (n <=? 90)
      || (192 <=? n) && (n <=? 222) && negb (n =? 215))%nat
  then ascii_of_nat (n + 32) else c.

(** [s.lower()]. *)
Fixpoint lower (s : string) : string :=
  match s with
  | EmptyString => EmptyString
  | String c s' => String (lower_ascii c) (lower s')
  end.

(** [sep.join(items)] on strings. *)
Fixpoint join (sep : string) (items : list string) : string :=
  match items with
  | [] => ""
  | [x] => x
  | x :: rest => x ++ sep ++ join sep rest
  end.

(** A [json] value seen as a [str], when it is one. *)
Definition as_str (v : json) : option string :=
  match v with
  | JStr s => Some s
  | _ => None
  end.

(** [sep.join(items)] on arbitrary values: a [TypeError] when an item is
    not a [str]. *)
Fixpoint join_values (sep : string) (items : list json) : result string :=
  match items with
  | [] => Ok ""
  | v :: rest =>
      match as_str v with
      | None => Raise TypeError
      | Some x =>
          match rest with
          | [] => Ok x
          | _ => tail <- join_values sep rest ;; Ok (x ++ sep ++ tail)
          end
      end
  end.

(** ** Insertion-ordered dictionaries *)

Section Dict.
Variable V : Type.

Definition dict : Type := list (string * V).

(** [d.get(k)]: the value under [k], if any. *)
Fixpoint dict_get (d : dict) (k : string) : option V :=
  match d with
  | [] => None
  | (k', v) :: d' => if String.eqb k k' then Some v else dict_get d' k
  end.

(** [k in d.keys()]. *)
Definition dict_mem (k : string) (d : dict) : bool :=
  match dict_get d k with
  | Some _ => true
  | None => false
  end.

(** [d[k] = v]: an existing key keeps its place and takes the new value,
    a new key goes last. *)
Fixpoint dict_set (d : dict) (k : string) (v : V) : dict :=
  match d with
  | [] => [(k, v)]
  | (k', v') :: d' =>
      if String.eqb k k' then (k', v) :: d' else (k', v') :: dict_set d' k v
  end.

(** [d[k]]: a [KeyError] when [k] is absent. *)
Definition getitem (d : dict) (k : string) : result V :=
  match dict_get d k with
  | Some v => Ok v
  | None => Raise (KeyError k)
  end.

Definition dict_keys (d : dict) : list string := map fst d.
Definition dict_values (d : dict) : list V := map snd d.
Definition dict_items (d : dict) : list (string * V) := d.

(** A dictionary built from [{}] by assignments has no repeated key. *)
Definition dict_wf (d : dict) : Prop := NoDup (dict_keys d).
End Dict.

(** ** The [Scroll] wrapper *)

Record Scroll : Type := mkScroll {
  _id : json;
  _name : json;
  _description : json;
  _kind : json;
  _types : json;
  _growth_cost : json;
  _order_cost : json;
  _energy_cost : json;
  _decay_cost : json;
  _attack : json;
  _countdown : json;
  _health : json;
  _flavor : json;
  _rarity : json;
  _set : json;
  _passive_rules : json;
  _abilities : json
}.

(** [json_data[k]] on whatever [json.loads] produced: only a [dict] can be
    indexed by a string, every other value raises [TypeError]. *)
Definition subscript (json_data : json) (k : string) : result json :=
  match json_data with
  | JObj d => getitem d k
  | _ => Raise TypeError
  end.

(** [json_data.get(k, default)]: values other than a [dict] have no [get]. *)
Definition get_default (json_data : json) (k : string) (default : json)
  : result json :=
  match json_data with
  | JObj d => Ok (match dict_get d k with Some v => v | None => default end)
  | _ => Raise AttributeError
  end.

(** [Scroll.__init__]. *)
Definition Scroll_init (json_data : json) : result Scroll :=
  id <- subscript json_data "id" ;;
  name <- subscript json_data "name" ;;
  description <- subscript json_data "description" ;;
  kind <- subscript json_data "kind" ;;
  types <- subscript json_data "types" ;;
  growth_cost <- subscript json_data "costgrowth" ;;
  order_cost <- subscript json_data "costorder" ;;
  energy_cost <- subscript json_data "costenergy" ;;
  decay_cost <- subscript json_data "costdecay" ;;
  attack <- subscript json_data "ap" ;;
  countdown <- subscript json_data "ac" ;;
  health <- subscript json_data "hp" ;;
  flavor <- subscript json_data "flavor" ;;
  rarity <- subscript json_data "rarity" ;;
  set <- subscript json_data "set" ;;
  passive_rules <- get_default json_data "passiverules" (JArr []) ;;
  abilities <- get_default json_data "abilities" (JArr []) ;;
  Ok (mkScroll id name description kind types growth_cost order_cost
        energy_cost decay_cost attack countdown health flavor rarity set
        passive_rules abilities).

(** The [name] property. *)
Definition name (scroll : Scroll) : json := _name scroll.

(** [v.lower()] on a value: only a [str] has the method. *)
Definition lower_value (v : json) : result string :=
  match as_str v with
  | Some s => Ok (lower s)
  | None => Raise AttributeError
  end.

(** ** The exception [MultipleScrollsFound] *)

(** [MultipleScrollsFound.__init__]: the exception keeps the [name] of each
    scroll it is given, and the search term. *)
Definition MultipleScrollsFound_init (scrolls : list Scroll)
    (search_term : string) : exn :=
  MultipleScrollsFound (map name scrolls) search_term.

(** [MultipleScrollsFound.__str__], on the two attributes. *)
Definition MultipleScrollsFound_str (scrolls : list json)
    (search_term : string) : result string :=
  if (5 <? List.length scrolls)%nat then
    Ok ("Too many scrolls matches your query '" ++ search_term ++ "'")
  else
    names <- join_values ", " scrolls ;;
    Ok ("Multiple scrolls match '" ++ search_term ++ "'z: " ++ names).

(** ** Numbers *)

(** [divmod_near a b] of CPython's [long] for [0 < b]: quotient rounded to
    the nearest integer, ties to even, and the matching remainder. *)
Definition divmod_near (a b : Z) : Z * Z :=
  let q := a / b in
  let r := a mod b in
  if (b <? 2 * r) || ((2 * r =? b) && Z.odd q) then (q + 1, r - b) else (q, r).

(** [round(n, ndigits)] on an [int]: [n] itself when [ndigits] is not
    negative, else [n] rounded to a multiple of [10 ** -ndigits]. *)
Definition py_round (n ndigits : Z) : Z :=
  if 0 <=? ndigits then n else n - snd (divmod_near n (10 ^ (- ndigits))).

(** [score >= threshold], an [int] against a [float] or [int]. *)
Definition ge_threshold (score : Z) (threshold : Q) : bool :=
  Qle_bool threshold (inject_Z score).

(** [max(values)]: a [ValueError] on an empty sequence. *)
Definition py_max (values : list Z) : result Z :=
  match values with
  | [] => Raise ValueError
  | v :: rest => Ok (fold_left Z.max rest v)
  end.

(** The default of the [threshold] argument: the double written [0.7],
    which is [6305039478318694 / 2^53]. *)
Definition default_threshold : Q := 6305039478318694 # 9007199254740992.

(** ** The class attribute and the code that runs on it *)

(** What a request to the catalog URL comes to, up to and including
    [json.loads]: the request or the reading of the body fails, the text is
    not JSON, or a document is obtained. *)
Inductive response : Type :=
| TransportFailure
| Unparseable
| Document (data : json).

(** The state of the class: the attribute [_scrolls_db] ([None] until it is
    assigned), and the number of requests sent so far, which the code does
    not store and which is kept to tell one fetch from the next. *)
Record cls : Type := mkCls {
  _scrolls_db : option (dict Scroll);
  requests : nat
}.

(** Code that reads and writes the class and may raise.  An exception
    leaves the assignments made before it in place. *)
Definition py (A : Type) : Type := cls -> result A * cls.

Definition ret {A : Type} (a : A) : py A := fun c => (Ok a, c).

Definition raise {A : Type} (e : exn) : py A := fun c => (Raise e, c).

Definition lift {A : Type} (r : result A) : py A := fun c => (r, c).

Definition pbind {A B : Type} (m : py A) (k : A -> py B) : py B :=
  fun c =>
    match m c with
    | (Ok a, c') => k a c'
    | (Raise e, c') => (Raise e, c')
    end.

Notation "x <~ m ;; k" := (pbind m (fun x => k))
  (at level 100, m at next level, right associativity) : py_scope.
Notation "m ;;; k" := (pbind m (fun _ => k))
  (at level 100, right associativity) : py_scope.

(** Reading [cls._scrolls_db]. *)
Definition get_db : py (option (dict Scroll)) :=
  fun c => (Ok (_scrolls_db c), c).

(** [cls._scrolls_db = db]. *)
Definition set_db (db : dict Scroll) : py unit :=
  fun c => (Ok tt, mkCls (Some db) (requests c)).

(** [cls._scrolls_db[key] = scroll]; [None] supports no item assignment. *)
Definition db_setitem (key : string) (scroll : Scroll) : py unit :=
  fun c =>
    match _scrolls_db c with
    | Some db => (Ok tt, mkCls (Some (dict_set db key scroll)) (requests c))
    | None => (Raise TypeError, c)
    end.

(** A [for] loop whose body may raise. *)
Fixpoint for_each {A : Type} (items : list A) (body : A -> py unit) : py unit :=
  match items with
  | [] => ret tt
  | x :: rest => body x ;;; for_each rest body
  end.

(** A list comprehension whose element expression may raise. *)
Fixpoint comprehension {A B : Type} (f : A -> result B) (items : list A)
  : result (list B) :=
  match items with
  | [] => Ok []
  | x :: rest => y <- f x ;; ys <- comprehension f rest ;; Ok (y :: ys)
  end.

(** What a [for] loop iterates over: the items of a list, the keys of a
    [dict], the characters of a [str]; other values are not iterable. *)
Definition py_iter (v : json) : result (list json) :=
  match v with
  | JArr items => Ok items
  | JObj d => Ok (map JStr (dict_keys d))
  | JStr s => Ok (map (fun c => JStr (String c "")) (list_ascii_of_string s))
  | _ => Raise TypeError
  end.

(** Sending the request: the only place where the caller is suspended.
    The request gets the next number. *)
Definition send_request : py nat :=
  fun c => (Ok (requests c), mkCls (_scrolls_db c) (S (requests c))).

(** Lines 112 to 114 once the response is there: the body text parsed by
    [json.loads], or the exception of the step that failed. *)
Definition receive (resp : response) : py json :=
  match resp with
  | TransportFailure => raise ClientError
  | Unparseable => raise JSONDecodeError
  | Document data => ret data
  end.

(** Lines 117 and 118, the body of the loop of [__load_scrolls]. *)
Definition load_one (scroll_data : json) : py unit :=
  scroll <~ lift (Scroll_init scroll_data) ;;
  key <~ lift (lower_value (name scroll)) ;;
  db_setitem key scroll.

(** Lines 115 to 118: the attribute is set to [{}] and filled record by
    record. *)
Definition populate (data : json) : py unit :=
  set_db [] ;;;
  v <~ lift (get_default data "data" (JArr [])) ;;
  items <~ lift (py_iter v) ;;
  for_each items load_one.

(** [__load_scrolls] from the moment the response arrives. *)
Definition load_scrolls_resume (resp : response) : py unit :=
  data <~ receive resp ;; populate data.

Section Resolver.

(** [fuzz.partial_ratio]. *)
Variable partial_ratio : string -> string -> Z.

(** The response the [k]-th request receives. *)
Variable server : nat -> response.

(** [Scroll.__load_scrolls]. *)
Definition load_scrolls : py unit :=
  k <~ send_request ;; load_scrolls_resume (server k).

(** Line 134: the score of a cached name against the query. *)
Definition score (query scroll_name : string) : Z :=
  py_round (partial_ratio query scroll_name) 2.

(** Lines 135 and 136, the body of the loop over the cached names. *)
Definition keep_if_close (query : string) (threshold : Q)
    (scores : dict Z) (scroll_name : string) : dict Z :=
  if ge_threshold (score query scroll_name) threshold
  then dict_set scores scroll_name (score query scroll_name)
  else scores.

(** Lines 131 to 136: the names that reach the threshold, with their
    scores. *)
Definition name_scores (db : dict Scroll) (query : string) (threshold : Q)
  : dict Z :=
  fold_left (keep_if_close query threshold) (dict_keys db) [].

(** Line 139: the names whose score is the maximum. *)
Definition closest_items (scores : dict Z) (max_score : Z) : list string :=
  map fst (filter (fun item => snd item =? max_score) (dict_items scores)).

(** Lines 131 to 145, the fuzzy search, on the dictionary the attribute
    holds. *)
Definition fuzzy_search (db : dict Scroll) (query : string) (threshold : Q)
  : result Scroll :=
  let scores := name_scores db query threshold in
  max_score <- py_max (dict_values scores) ;;
  match closest_items scores max_score with
  | [scroll_name] => getitem db scroll_name
  | (_ :: _ :: _) as closest =>
      scrolls <- comprehension (getitem db) closest ;;
      Raise (MultipleScrollsFound_init scrolls query)
  | [] => Raise ScrollNotFound
  end.

(** Lines 127 to 145, with [query] already lower-cased. *)
Definition lookup (db : dict Scroll) (query : string) (threshold : Q)
  : result Scroll :=
  if dict_mem query db then getitem db query
  else fuzzy_search db query threshold.

(** Lines 127 to 145 on the class attribute; [None] has no [keys]. *)
Definition search (query : string) (threshold : Q) : py Scroll :=
  db <~ get_db ;;
  match db with
  | Some db => lift (lookup db query threshold)
  | None => raise AttributeError
  end.

(** [Scroll.get_by_name]. *)
Definition get_by_name (query : string) (threshold : Q) : py Scroll :=
  let query := lower query in
  db <~ get_db ;;
  match db with
  | None => load_scrolls
  | Some _ => ret tt
  end ;;;
  search query threshold.

End Resolver.

(** ** Callers on the event loop

    [get_by_name] is a coroutine.  The event loop runs one caller at a time
    and switches only where a caller awaits.  A caller that finds the cache
    unset awaits the request and the body of the response (lines 112 and
    113); from the response to the end of the loop (lines 114 to 118) it
    runs without an [await]; leaving the two [async with] blocks it awaits
    their exits, so other callers may run between its load and its lookup;
    the lookup (lines 127 to 145) again runs without an [await].  The class
    is read or written in three places only, the test of line 124, the
    load and the lookup, and a turn is one of them.  A caller that finds
    the cache set goes from the test to the lookup without an [await].
    Two turns of the same caller in a row are the case where an [await]
    did not let anyone else run. *)

Inductive task : Type :=
| Called (query : string) (threshold : Q)
| Suspended (query : string) (threshold : Q) (k : nat)
| Loaded (query : string) (threshold : Q)
| Returned (r : result Scroll).

Section EventLoop.

Variable partial_ratio : string -> string -> Z.
Variable server : nat -> response.

(** One turn of a caller: from the call to the request (or to the end when
    the cache is set); from the response to the end of the load (or to the
    end of the call when the load raises); from there to the end. *)
Definition turn (t : task) (c : cls) : task * cls :=
  match t with
  | Called query threshold =>
      let query := lower query in
      match _scrolls_db c with
      | None =>
          match send_request c with
          | (Ok k, c') => (Suspended query threshold k, c')
          | (Raise e, c') => (Returned (Raise e), c')
          end
      | Some _ =>
          let (r, c') := search partial_ratio query threshold c in
          (Returned r, c')
      end
  | Suspended query threshold k =>
      match load_scrolls_resume (server k) c with
      | (Ok _, c') => (Loaded query threshold, c')
      | (Raise e, c') => (Returned (Raise e), c')
      end
  | Loaded query threshold =>
      let (r, c') := search partial_ratio query threshold c in
      (Returned r, c')
  | Returned r => (Returned r, c)
  end.

(** The [i]-th caller takes a turn. *)
Fixpoint turn_at (i : nat) (ts : list task) (c : cls) : list task * cls :=
  match ts, i with
  | [], _ => ([], c)
  | t :: rest, O => let (t', c') := turn t c in (t' :: rest, c')
  | t :: rest, S i' => let (rest', c') := turn_at i' rest c in (t :: rest', c')
  end.

(** The callers take turns in the order of the schedule. *)
Definition run (schedule : list nat) (ts : list task) (c : cls)
  : list task * cls :=
  fold_left (fun st i => turn_at i (fst st) (snd st)) schedule (ts, c).

(** The cache a successful load of the [k]-th response leaves. *)
Definition catalog (k : nat) : dict Scroll :=
  match _scrolls_db (snd (load_scrolls_resume (server k) (mkCls None 0))) with
  | Some db => db
  | None => []
  end.

(** What a caller can be, given its call: not started; suspended on a
    request already sent; past its load, the cache being set; or returned
    with the lookup of its lower-cased query in the catalog of a
    response. *)
Definition task_ok (c : cls) (call : string * Q) (t : task) : Prop :=
  t = Called (fst call) (snd call)
  \/ (exists k, (k < requests c)%nat /\
                t = Suspended (lower (fst call)) (snd call) k)
  \/ (t = Loaded (lower (fst call)) (snd call) /\ _scrolls_db c <> None)
  \/ (exists k, (k < requests c)%nat /\
                t = Returned (lookup partial_ratio (catalog k)
                                (lower (fst call)) (snd call))).

(** What the cache can be: unset, or the whole catalog of a response. *)
Definition cache_ok (c : cls) : Prop :=
  _scrolls_db c = None
  \/ (exists k, (k < requests c)%nat /\ _scrolls_db c = Some (catalog k)).

End EventLoop.

Definition is_suspended (t : task) : bool :=
  match t with
  | Suspended _ _ _ => true
  | _ => false
  end.

Definition is_called (t : task) : bool :=
  match t with
  | Called _ _ => true
  | _ => false
  end.

(** The requests sent and not yet answered. *)
Definition in_flight (ts : list task) : nat :=
  List.length (filter is_suspended ts).

(** The callers that have taken a turn. *)
Definition started (ts : list task) : nat :=
  List.length (filter (fun t => negb (is_called t)) ts).

(** How far a caller has come: called, suspended, loaded, returned. *)
Definition stage (t : task) : nat :=
  match t with
  | Called _ _ => 0
  | Suspended _ _ _ => 1
  | Loaded _ _ => 2
  | Returned _ => 3
  end.

(** The callers at the moment of their calls. *)
Definition calls_of (calls : list (string * Q)) : list task :=
  map (fun call => Called (fst call) (snd call)) calls.

(** ** Records of the catalog *)

(** The key and the wrapper one pass of the loop of [__load_scrolls]
    computes for a record, and the pairs computed for a list of records. *)
Definition entry_of (scroll_data : json) : result (string * Scroll) :=
  scroll <- Scroll_init scroll_data ;;
  key <- lower_value (name scroll) ;;
  Ok (key, scroll).

Definition entries_of (items : list json) : result (list (string * Scroll)) :=
  comprehension entry_of items.

(** The assignments of a list of pairs, in order. *)
Definition assign_all (entries : list (string * Scroll)) (db : dict Scroll)
  : dict Scroll :=
  fold_left (fun d e => dict_set d (fst e) (snd e)) entries db.

(** The last pair stored under a key. *)
Definition last_under (k : string) (entries : list (string * Scroll))
  : option Scroll :=
  option_map snd (find (fun e => String.eqb k (fst e)) (rev entries)).

(** The fields [Scroll.__init__] reads with a subscript. *)
Definition required_fields : list string :=
  ["id"; "name"; "description"; "kind"; "types"; "costgrowth"; "costorder";
   "costenergy"; "costdecay"; "ap"; "ac"; "hp"; "flavor"; "rarity"; "set"].

(** All the fields [Scroll.__init__] reads. *)
Definition known_fields : list string :=
  (required_fields ++ ["passiverules"; "abilities"])%list.

(** A record with every required field, whose [name] is a string. *)
Definition complete (scroll_data : json) : bool :=
  match scroll_data with
  | JObj d =>
      forallb (fun k => dict_mem k d) required_fields
      && match dict_get d "name" with
         | Some (JStr _) => true
         | _ => false
         end
  | _ => false
  end.

(** A record without the fields the constructor does not read. *)
Definition known_only (d : dict json) : dict json :=
  filter (fun member => existsb (String.eqb (fst member)) known_fields) d.

(** Every entry of the cache is keyed by the lower-cased [name] of its
    record, a string. *)
Definition keyed_by_name (db : dict Scroll) : Prop :=
  Forall (fun e => exists n, name (snd e) = JStr n /\ fst e = lower n) db.

(** ** Text operations of [str] *)

(** [c in s] for one character. *)
Fixpoint occurs (c : ascii) (s : string) : bool :=
  match s with
  | EmptyString => false
  | String x s' => Ascii.eqb c x || occurs c s'
  end.

(** The line feed that the Python literal ['\n'] denotes; the Python
    literal ['\\n'] is the two characters written ["\n"] here. *)
Definition newline : string := String (ascii_of_nat 10) "".

(** [c.title()] on one character, what [capitalize] puts first: 'a'..'z'
    and the small letters of Latin-1 (U+00E0 to U+00FE without the division
    sign U+00F7) go 32 places down, and the sharp s U+00DF becomes [Ss].
    The capitals of U+00B5 and U+00FF are no 8-bit characters; these two
    are left as they are, which is where the model ends. *)
Definition title_char (c : ascii) : string :=
  let n := nat_of_ascii c in
  if ((97 <=? n) && (n <=? 122)
      || (224 <=? n) && (n <=? 254) && negb (n =? 247))%nat
  then String (ascii_of_nat (n - 32)) ""
  else if (n =? 223)%nat then "Ss"
  else String c "".

(** [s.capitalize()]: the first character in title case, the others in
    lower case. *)
Definition capitalize (s : string) : string :=
  match s with
  | EmptyString => EmptyString
  | String c s' => title_char c ++ lower s'
  end.

(** [s.lstrip(chars)]: the leading characters that belong to [chars] are
    dropped. *)
Fixpoint lstrip (chars : string) (s : string) : string :=
  match s with
  | EmptyString => EmptyString
  | String c s' => if occurs c chars then lstrip chars s' else s
  end.

(** [s.replace(old, new)] for a non-empty [old], scanning from the left;
    [skip] counts the characters of a match still to pass over. *)
Fixpoint replace_from (old new : string) (skip : nat) (s : string) : string :=
  match s with
  | EmptyString => EmptyString
  | String c s' =>
      match skip with
      | S k => replace_from old new k s'
      | O =>
          if prefix old s
          then new ++ replace_from old new (String.length old - 1) s'
          else String c (replace_from old new 0 s')
      end
  end.

(** [new] after each character, what [replace] does with an empty [old]
    past the start of the string. *)
Fixpoint after_each (new : string) (s : string) : string :=
  match s with
  | EmptyString => EmptyString
  | String c s' => String c (new ++ after_each new s')
  end.

(** [s.replace(old, new)]. *)
Definition replace (old new : string) (s : string) : string :=
  match old with
  | EmptyString => new ++ after_each new s
  | String _ _ => replace_from old new 0 s
  end.

(** ** The truth value and the order of values *)

(** [bool(v)]. *)
Definition truthy (v : json) : bool :=
  match v with
  | JNull => false
  | JBool b => b
  | JNum q => negb (Qnum q =? 0)
  | JStr s => negb (String.eqb s "")
  | JArr items => match items with [] => false | _ :: _ => true end
  | JObj d => match d with [] => false | _ :: _ => true end
  end.

(** [v < 1]: numbers and booleans compare with an [int], other values
    raise [TypeError]. *)
Definition lt_one (v : json) : result bool :=
  match v with
  | JNum q => Ok (negb (Qle_bool 1 q))
  | JBool b => Ok (negb b)
  | _ => Raise TypeError
  end.

(** ** The display properties of [Scroll] *)

(** [urllib.parse.quote_plus] on one character of a [str]: the unreserved
    characters stay, a space becomes [+], any other byte of the UTF-8
    encoding becomes [%XX]. *)
Definition unreserved (c : ascii) : bool :=
  let n := nat_of_ascii c in
  ((65 <=? n) && (n <=? 90) || (97 <=? n) && (n <=? 122)
   || (48 <=? n) && (n <=? 57))%nat
  || occurs c "_.-~".

Definition hex_digit (n : nat) : ascii :=
  if (n <? 10)%nat then ascii_of_nat (48 + n) else ascii_of_nat (55 + n).

Definition percent (byte : nat) : string :=
  String "%" (String (hex_digit (byte / 16)) (String (hex_digit (byte mod 16)) "")).

Definition quote_char (c : ascii) : string :=
  let n := nat_of_ascii c in
  if unreserved c then String c ""
  else if Ascii.eqb c " " then "+"
  else if (n <? 128)%nat then percent n
  else percent (192 + n / 64) ++ percent (128 + n mod 64).

(** [quote_plus(s)] on a [str]. *)
Fixpoint quote_plus (s : string) : string :=
  match s with
  | EmptyString => EmptyString
  | String c s' => quote_char c ++ quote_plus s'
  end.

(** The [image_url] property; [quote_plus] accepts no value but a [str]
    (or bytes, which JSON does not produce). *)
Definition image_url (scroll : Scroll) : result string :=
  match as_str (name scroll) with
  | Some s =>
      Ok ("https://a.scrollsguide.com/image/screen?name=" ++ quote_plus s
          ++ "&size=small")
  | None => Raise TypeError
  end.

Section Cost.

(** [format(v, '')], what an f-string writes for a value. *)
Variable format_value : json -> string.

(** The [cost] property; [None] when the four tests fail and the function
    ends without a [return]. *)
Definition cost (scroll : Scroll) : option string :=
  if truthy (_growth_cost scroll) then
    Some ("<:Growth:320829951534170113> " ++ format_value (_growth_cost scroll))
  else if truthy (_order_cost scroll) then
    Some ("<:Order:320830133801975808> " ++ format_value (_order_cost scroll))
  else if truthy (_decay_cost scroll) then
    Some ("<:Decay:320829724085583874> " ++ format_value (_decay_cost scroll))
  else if truthy (_energy_cost scroll) then
    Some ("<:Energy:320830049039417344> " ++ format_value (_energy_cost scroll))
  else None.

End Cost.

(** The [attack] property. *)
Definition attack (scroll : Scroll) : json :=
  if negb (truthy (_attack scroll)) then JStr "-" else _attack scroll.

(** The [countdown] property. *)
Definition countdown (scroll : Scroll) : result json :=
  below <- lt_one (_countdown scroll) ;;
  Ok (if below then JStr "-" else _countdown scroll).

(** The [health] property. *)
Definition health (scroll : Scroll) : json := _health scroll.

(** What [rarities[self._rarity]] comes to: a label, a [KeyError] carrying
    the key, or the [TypeError] of a key that cannot be hashed. *)
Inductive rarity_outcome : Type :=
| Rarity (label : string)
| RarityKeyError (key : json)
| RarityTypeError.

(** The entry of [{0: 'Common', 1: 'Uncommon', 2: 'Rare'}] for a number. *)
Definition rarity_label (q : Q) : option string :=
  if Qeq_bool q 0 then Some "Common"
  else if Qeq_bool q 1 then Some "Uncommon"
  else if Qeq_bool q 2 then Some "Rare"
  else None.

(** The [rarity] property.  A number finds the entry it is equal to;
    [False] and [True] are the keys [0] and [1]. *)
Definition rarity (scroll : Scroll) : rarity_outcome :=
  match _rarity scroll with
  | JNum q =>
      match rarity_label q with
      | Some label => Rarity label
      | None => RarityKeyError (JNum q)
      end
  | JBool b => Rarity (if b then "Uncommon" else "Common")
  | JArr _ | JObj _ => RarityTypeError
  | key => RarityKeyError key
  end.

(** [v.replace(old, new)] and the like apply to a [str] only. *)
Definition str_method (f : string -> string) (v : json) : result string :=
  match as_str v with
  | Some s => Ok (f s)
  | None => Raise AttributeError
  end.

(** The [description] property. *)
Definition description (scroll : Scroll) : result string :=
  str_method
    (fun s =>
       replace "]" ""
         (replace "[" ""
            (replace "\n" newline (replace ">" "" (replace "<" "" s)))))
    (_description scroll).

(** The [flavor] property. *)
Definition flavor (scroll : Scroll) : result string :=
  str_method (fun s => replace "\n" newline (lstrip "\n" s)) (_flavor scroll).

(** The element expression of the comprehension of [passive_rules]. *)
Definition rule_name (rule : json) : result string :=
  v <- subscript rule "name" ;;
  str_method (fun s => replace "]" "" (replace "[" "" s)) v.

(** The [passive_rules] property. *)
Definition passive_rules (scroll : Scroll) : result string :=
  rules <- py_iter (_passive_rules scroll) ;;
  names <- comprehension rule_name rules ;;
  Ok (join "; " names).

(** The [types] property. *)
Definition types (scroll : Scroll) : result string :=
  str_method (replace "," ", ") (_types scroll).

(** The [kind] property. *)
Definition kind (scroll : Scroll) : result string :=
  str_method capitalize (_kind scroll).

(** ** Reading the display texts *)

(** [old in s]. *)
Fixpoint contains (old : string) (s : string) : bool :=
  match s with
  | EmptyString => prefix old EmptyString
  | String _ s' => prefix old s || contains old s'
  end.

(** [s.startswith(c)] for one character. *)
Definition starts_with (c : ascii) (s : string) : bool :=
  match s with
  | EmptyString => false
  | String x _ => Ascii.eqb x c
  end.

(** Every character of the string passes the test. *)
Fixpoint all_chars (p : ascii -> bool) (s : string) : bool :=
  match s with
  | EmptyString => true
  | String c s' => p c && all_chars p s'
  end.

(** Every comma of the string is followed by a space. *)
Fixpoint commas_spaced (s : string) : bool :=
  match s with
  | EmptyString => true
  | String c s' =>
      (if Ascii.eqb c "," then starts_with " " s' else true) && commas_spaced s'
  end.

Definition is_ascii (c : ascii) : bool := (nat_of_ascii c <? 128)%nat.

Definition is_upper (c : ascii) : bool :=
  ((65 <=? nat_of_ascii c) && (nat_of_ascii c <=? 90))%nat.

Definition is_lower (c : ascii) : bool :=
  ((97 <=? nat_of_ascii c) && (nat_of_ascii c <=? 122))%nat.

(** The characters a quoted name is made of. *)
Definition url_safe (c : ascii) : bool := unreserved c || occurs c "+%".

(** ** Sample data *)

(** A catalog record with every field the constructor reads. *)
Definition record (id : Z) (scroll_name : string) : json :=
  JObj [("id", JNum (inject_Z id)); ("name", JStr scroll_name);
        ("description", JStr "Deal 2 damage"); ("kind", JStr "SPELL");
        ("types", JStr "Spell"); ("costgrowth", JNum 0); ("costorder", JNum 0);
        ("costenergy", JNum 3); ("costdecay", JNum 0); ("ap", JNum 0);
        ("ac", JNum 0); ("hp", JNum 0); ("flavor", JStr "");
        ("rarity", JNum 1); ("set", JNum 1)].

(** The document [{"data": [...]}]. *)
Definition document (items : list json) : json := JObj [("data", JArr items)].

(** [fuzz.partial_ratio] on the strings the examples use (difflib
    matcher); equal strings score 100, an empty string scores 0. *)
Definition sample_table : list (string * string * Z) :=
  [("fo", "foo", 100); ("fo", "fon", 100); ("fo", "bar", 0);
   ("fox", "foo", 67); ("fox", "fon", 67); ("fox", "bar", 0);
   ("fax", "foo", 33); ("fax", "fon", 33); ("fax", "bar", 33);
   ("foa", "foo", 67); ("foa", "fon", 67); ("foa", "bar", 33);
   ("foo", "fon", 67); ("fon", "foo", 67);
   ("anything", "foo", 0); ("anything", "fon", 33); ("anything", "bar", 33)].

Definition sample_ratio (s1 s2 : string) : Z :=
  if String.eqb s1 s2 then 100
  else if String.eqb s1 "" || String.eqb s2 "" then 0
  else
    match find (fun e => String.eqb (fst (fst e)) s1 && String.eqb (snd (fst e)) s2)
               sample_table with
    | Some e => snd e
    | None => 0
    end.

(** A server that always answers with the same document. *)
Definition serve (data : json) : nat -> response := fun _ => Document data.

(** The class before any call. *)
Definition fresh : cls := mkCls None 0.

(** The wrapper [Scroll.__init__] builds from [record id scroll_name]. *)
Definition sample_scroll (id : Z) (scroll_name : string) : Scroll :=
  mkScroll (JNum (inject_Z id)) (JStr scroll_name) (JStr "Deal 2 damage")
    (JStr "SPELL") (JStr "Spell") (JNum 0) (JNum 0) (JNum 3) (JNum 0)
    (JNum 0) (JNum 0) (JNum 0) (JStr "") (JNum 1) (JNum 1) (JArr []) (JArr []).

Definition foo_fon : json := document [record 1 "Foo"; record 2 "Fon"].

Definition foo_bar : json := document [record 1 "Foo"; record 2 "Bar"].

(** The class once [foo_fon], or [foo_bar], has been loaded by the first
    request. *)
Definition foo_fon_loaded : cls :=
  mkCls (Some [("foo", sample_scroll 1 "Foo"); ("fon", sample_scroll 2 "Fon")]) 1.

Definition foo_bar_loaded : cls :=
  mkCls (Some [("foo", sample_scroll 1 "Foo"); ("bar", sample_scroll 2 "Bar")]) 1.

(** The class once [foo_bar] has been loaded last of two responses. *)
Definition foo_bar_loaded_twice : cls :=
  mkCls (Some [("foo", sample_scroll 1 "Foo"); ("bar", sample_scroll 2 "Bar")]) 2.

(** A record that has an [id] and a [name] and nothing else. *)
Definition bare_record : json := JObj [("id", JNum 1); ("name", JStr "Foo")].

(** A server whose first response fails and whose later ones carry
    [foo_fon]. *)
Definition flaky (k : nat) : response :=
  match k with
  | O => TransportFailure
  | S _ => Document foo_fon
  end.

(** A server whose first response carries [foo_bar] and whose later ones
    carry no record. *)
Definition emptied (k : nat) : response :=
  match k with
  | O => Document foo_bar
  | S _ => Document (document [])
  end.

(** Two callers, and a schedule on which both start before either
    resumes. *)
Definition two_calls : list (string * Q) :=
  [("Foo", default_threshold); ("fo", default_threshold)].

(** A scroll with markup in its texts. *)
Definition ember : Scroll :=
  mkScroll (JNum 7) (JStr "Burn & Fury")
    (JStr "<b>Deal</b> [2] damage\nto a unit") (JStr "SPELL")
    (JStr "Spell,Fire") (JNum 0) (JNum 0) (JNum 3) (JNum 2)
    (JNum 0) (JNum 0) (JNum 4) (JStr "\nnever again\nor so") (JNum 1)
    (JNum 1) (JArr [JObj [("name", JStr "[Haste]")]]) (JArr []).

(** The members of [record 1 "Foo"]. *)
Definition foo_members : dict json :=
  [("id", JNum (inject_Z 1)); ("name", JStr "Foo");
   ("description", JStr "Deal 2 damage"); ("kind", JStr "SPELL");
   ("types", JStr "Spell"); ("costgrowth", JNum 0); ("costorder", JNum 0);
   ("costenergy", JNum 3); ("costdecay", JNum 0); ("ap", JNum 0);
   ("ac", JNum 0); ("hp", JNum 0); ("flavor", JStr "");
   ("rarity", JNum 1); ("set", JNum 1)].

(** A list in which the second record cannot be constructed. *)
Definition foo_bare_fon : json :=
  document [record 1 "Foo"; bare_record; record 2 "Fon"].

(** A complete record whose [flavor] is null, and the wrapper built from
    it. *)
Definition null_flavor_members : dict json :=
  [("id", JNum 1); ("name", JStr "Foo"); ("description", JStr "");
   ("kind", JStr "SPELL"); ("types", JStr "Spell"); ("costgrowth", JNum 0);
   ("costorder", JNum 0); ("costenergy", JNum 3); ("costdecay", JNum 0);
   ("ap", JNum 0); ("ac", JNum 0); ("hp", JNum 0); ("flavor", JNull);
   ("rarity", JNum 1); ("set", JNum 1)].

Definition null_flavor_scroll : Scroll :=
  mkScroll (JNum 1) (JStr "Foo") (JStr "") (JStr "SPELL") (JStr "Spell")
    (JNum 0) (JNum 0) (JNum 3) (JNum 0) (JNum 0) (JNum 0) (JNum 0) JNull
    (JNum 1) (JNum 1) (JArr []) (JArr []).

(** * Properties *)

(** ** Dictionaries *)

Section DictFacts.
Variable V : Type.
Implicit Types (d : dict V) (k : string) (v : V).

Lemma dict_get_set_same d k v : dict_get (dict_set d k v) k = Some v.
Proof.
  induction d as [|[k' v'] d IH]; simpl.
  - now rewrite String.eqb_refl.
  - destruct (String.eqb k k') eqn:E; simpl; rewrite E; auto.
Qed.

Lemma dict_get_set_other d k k' v :
  k' <> k -> dict_get (dict_set d k v) k' = dict_get d k'.
Proof.
  intros Hne. induction d as [|[k0 v0] d IH]; simpl.
  - apply String.eqb_neq in Hne. now rewrite Hne.
  - destruct (String.eqb k k0) eqn:E; simpl.
    + apply String.eqb_eq in E. subst k0.
      apply String.eqb_neq in Hne. now rewrite Hne.
    + now rewrite IH.
Qed.

Lemma dict_get_In d k v : dict_get d k = Some v -> In (k, v) d.
Proof.
  induction d as [|[k' v'] d IH]; simpl; [discriminate|].
  destruct (String.eqb k k') eqn:E.
  - apply String.eqb_eq in E. intros [= ->]. subst. now left.
  - auto.
Qed.

Lemma dict_get_None d k : dict_get d k = None <-> ~ In k (dict_keys d).
Proof.
  induction d as [|[k' v'] d IH]; simpl.
  - tauto.
  - destruct (String.eqb k k') eqn:E.
    + apply String.eqb_eq in E. subst. split; [discriminate|tauto].
    + apply String.eqb_neq in E. rewrite IH. intuition congruence.
Qed.

Lemma dict_mem_keys d k : dict_mem k d = true <-> In k (dict_keys d).
Proof.
  unfold dict_mem. destruct (dict_get d k) eqn:E.
  - split; auto. intros _. apply dict_get_In in E.
    apply (in_map fst) in E. exact E.
  - apply dict_get_None in E. split; [discriminate|tauto].
Qed.

Lemma dict_keys_get d k : In k (dict_keys d) -> exists v, dict_get d k = Some v.
Proof.
  intros H. destruct (dict_get d k) eqn:E; eauto.
  apply dict_get_None in E. tauto.
Qed.

(** Assigning to a key the dictionary lacks appends the pair. *)
Lemma dict_set_fresh d k v :
  ~ In k (dict_keys d) -> dict_set d k v = (d ++ [(k, v)])%list.
Proof.
  induction d as [|[k' v'] d IH]; simpl; auto.
  intros H. destruct (String.eqb k k') eqn:E.
  - apply String.eqb_eq in E. subst. tauto.
  - rewrite IH; tauto.
Qed.

Lemma dict_set_keys d k v :
  dict_keys (dict_set d k v)
  = if dict_mem k d then dict_keys d else (dict_keys d ++ [k])%list.
Proof.
  induction d as [|[k' v'] d IH]; simpl; auto.
  unfold dict_mem in *. simpl.
  destruct (String.eqb k k') eqn:E; simpl; auto.
  rewrite IH. destruct (dict_get d k); auto.
Qed.

Lemma dict_set_wf d k v : dict_wf d -> dict_wf (dict_set d k v).
Proof.
  unfold dict_wf. intros H. rewrite dict_set_keys.
  destruct (dict_mem k d) eqn:E; auto.
  assert (Hk : ~ In k (dict_keys d)).
  { rewrite <- dict_mem_keys. congruence. }
  apply NoDup_app; auto.
  - repeat constructor. simpl. tauto.
  - intros x Hx [<-|[]]. tauto.
Qed.

Lemma dict_wf_In_get d k v : dict_wf d -> In (k, v) d -> dict_get d k = Some v.
Proof.
  unfold dict_wf. induction d as [|[k' v'] d IH]; simpl; [tauto|].
  intros Hnd [Heq|Hin].
  - injection Heq as -> ->. now rewrite String.eqb_refl.
  - inversion Hnd as [|? ? Hk Hnd']; subst.
    destruct (String.eqb k k') eqn:E; auto.
    apply String.eqb_eq in E. subst k'.
    exfalso. apply Hk. apply (in_map fst) in Hin. exact Hin.
Qed.
End DictFacts.

(** ** Numbers *)

Lemma py_round_2 n : py_round n 2 = n.
Proof. reflexivity. Qed.

Lemma ge_threshold_spec s threshold :
  ge_threshold s threshold = true <-> (threshold <= inject_Z s)%Q.
Proof. unfold ge_threshold. apply Qle_bool_iff. Qed.

(** Against the default threshold every score from 1 up passes. *)
Lemma ge_default_threshold s :
  ge_threshold s default_threshold = true <-> 1 <= s.
Proof.
  rewrite ge_threshold_spec. unfold default_threshold, Qle, inject_Z. simpl.
  lia.
Qed.

Lemma fold_max_bounds l : forall v,
  v <= fold_left Z.max l v /\
  (forall x, In x l -> x <= fold_left Z.max l v) /\
  In (fold_left Z.max l v) (v :: l).
Proof.
  induction l as [|y l IH]; intros v; simpl.
  - split; [lia|]. split; [tauto|]. now left.
  - destruct (IH (Z.max v y)) as (H1 & H2 & H3).
    split; [lia|]. split.
    + intros x [<-|Hx]; [lia|auto].
    + destruct H3 as [H3|H3]; [|tauto].
      destruct (Z.max_spec v y) as [[_ E]|[_ E]]; rewrite E in *; tauto.
Qed.

Lemma py_max_nonempty l : l <> [] -> exists m, py_max l = Ok m.
Proof. destruct l; [congruence|]. simpl. eauto. Qed.

Lemma py_max_spec l m :
  py_max l = Ok m -> In m l /\ forall x, In x l -> x <= m.
Proof.
  destruct l as [|v l]; simpl; [discriminate|].
  intros [= <-]. destruct (fold_max_bounds l v) as (H1 & H2 & H3).
  split; [exact H3|]. intros x [<-|Hx]; auto.
Qed.

(** ** The fuzzy search *)

Section ResolverFacts.
Variable partial_ratio : string -> string -> Z.
Variable server : nat -> response.

Local Abbreviation score := (score partial_ratio).
Local Abbreviation name_scores := (name_scores partial_ratio).
Local Abbreviation fuzzy_search := (fuzzy_search partial_ratio).
Local Abbreviation lookup := (lookup partial_ratio).
Local Abbreviation search := (search partial_ratio).
Local Abbreviation get_by_name := (get_by_name partial_ratio server).

Lemma scan_get query threshold names : forall scores n,
  dict_get (fold_left (keep_if_close partial_ratio query threshold) names scores) n
  = if existsb (String.eqb n) names && ge_threshold (score query n) threshold
    then Some (score query n)
    else dict_get scores n.
Proof.
  induction names as [|x names IH]; intros scores n; simpl; auto.
  rewrite IH. unfold keep_if_close.
  destruct (String.eqb n x) eqn:E; simpl.
  - apply String.eqb_eq in E. subst x.
    destruct (ge_threshold (score query n) threshold) eqn:G.
    + rewrite andb_true_r. rewrite dict_get_set_same.
      now destruct (existsb _ _).
    + now rewrite andb_false_r.
  - apply String.eqb_neq in E.
    destruct (ge_threshold (score query x) threshold); auto.
    rewrite dict_get_set_other; auto.
Qed.

Lemma scan_wf query threshold names : forall scores,
  dict_wf scores ->
  dict_wf (fold_left (keep_if_close partial_ratio query threshold) names scores).
Proof.
  induction names as [|x names IH]; intros scores H; simpl; auto.
  apply IH. unfold keep_if_close.
  destruct (ge_threshold _ _); auto using dict_set_wf.
Qed.

Lemma name_scores_wf db query threshold :
  dict_wf (name_scores db query threshold).
Proof. apply scan_wf. constructor. Qed.

(** A name is a candidate exactly when it is cached and its score reaches
    the threshold; the score recorded is its score. *)
Lemma name_scores_get db query threshold n s :
  dict_get (name_scores db query threshold) n = Some s
  <-> In n (dict_keys db) /\ ge_threshold (score query n) threshold = true
      /\ s = score query n.
Proof.
  unfold name_scores. rewrite scan_get. simpl.
  destruct (existsb (String.eqb n) (dict_keys db)) eqn:E; simpl.
  - apply existsb_exists in E. destruct E as (x & Hx & E).
    apply String.eqb_eq in E. subst x.
    destruct (ge_threshold _ _); intuition congruence.
  - split; [discriminate|]. intros (Hin & _). exfalso.
    assert (existsb (String.eqb n) (dict_keys db) = true); [|congruence].
    apply existsb_exists. exists n. split; auto. apply String.eqb_refl.
Qed.

Lemma name_scores_In db query threshold n s :
  In (n, s) (name_scores db query threshold)
  <-> In n (dict_keys db) /\ ge_threshold (score query n) threshold = true
      /\ s = score query n.
Proof.
  rewrite <- name_scores_get. split.
  - apply dict_wf_In_get, name_scores_wf.
  - apply dict_get_In.
Qed.

Lemma closest_items_In (scores : dict Z) max_score n :
  In n (closest_items scores max_score) <-> In (n, max_score) scores.
Proof.
  unfold closest_items, dict_items. rewrite in_map_iff. split.
  - intros ([n' s] & <- & H). apply filter_In in H. simpl in H.
    destruct H as (H & E). apply Z.eqb_eq in E. now subst.
  - intros H. exists (n, max_score). split; auto.
    apply filter_In. split; auto. simpl. apply Z.eqb_refl.
Qed.

Lemma closest_items_NoDup (scores : dict Z) max_score :
  dict_wf scores -> NoDup (closest_items scores max_score).
Proof.
  unfold dict_wf, closest_items, dict_items, dict_keys.
  induction scores as [|[n s] scores IH]; simpl; [constructor|].
  intros H. inversion H as [|? ? Hn Hnd]; subst.
  destruct (s =? max_score); simpl; auto.
  constructor; auto. intros Hin. apply Hn.
  apply in_map_iff in Hin. destruct Hin as (x & <- & Hx).
  apply filter_In in Hx. apply in_map. tauto.
Qed.
(** Nothing reaches the threshold: the dictionary of candidates is empty. *)
Lemma name_scores_empty db query threshold :
  (forall n, In n (dict_keys db) ->
             ge_threshold (score query n) threshold = false) ->
  name_scores db query threshold = [].
Proof.
  intros H. destruct (name_scores db query threshold) as [|[n s] rest] eqn:E; auto.
  assert (Hin : In (n, s) (name_scores db query threshold)).
  { rewrite E. now left. }
  apply name_scores_In in Hin. destruct Hin as (Hk & Hge & _).
  rewrite (H n Hk) in Hge. discriminate.
Qed.

(** Every name collected is a key of the cache, so reading the records of
    the collected names cannot fail. *)
Lemma comprehension_getitem (db : dict Scroll) names :
  (forall n, In n names -> In n (dict_keys db)) ->
  exists scrolls,
    comprehension (getitem db) names = Ok scrolls /\
    Forall2 (fun n r => dict_get db n = Some r) names scrolls.
Proof.
  induction names as [|n names IH]; intros H; simpl.
  - exists []. split; auto.
  - destruct (dict_keys_get db n) as (r & Hr); [apply H; now left|].
    destruct IH as (rs & E & F); [intros; apply H; now right|].
    exists (r :: rs). unfold getitem at 1. rewrite Hr. simpl. rewrite E. simpl.
    split; auto.
Qed.

Lemma NoDup_all_equal (l : list string) n :
  NoDup l -> In n l -> (forall x, In x l -> x = n) -> l = [n].
Proof.
  intros Hnd Hin Hall. destruct l as [|a l]; [destruct Hin|].
  assert (a = n) by (apply Hall; now left). subst a.
  destruct l as [|b l]; auto.
  assert (b = n) by (apply Hall; right; now left). subst b.
  inversion Hnd as [|? ? Hn _]. exfalso. apply Hn. now left.
Qed.

(** The maximum of the candidates' scores, when there is a candidate. *)
Lemma max_score_spec db query threshold n0 :
  In n0 (dict_keys db) ->
  ge_threshold (score query n0) threshold = true ->
  exists max_score,
    py_max (dict_values (name_scores db query threshold)) = Ok max_score /\
    In (n0, score query n0) (name_scores db query threshold) /\
    (exists n, In (n, max_score) (name_scores db query threshold)) /\
    (forall n s, In (n, s) (name_scores db query threshold) -> s <= max_score).
Proof.
  intros Hk Hge.
  assert (H0 : In (n0, score query n0) (name_scores db query threshold)).
  { apply name_scores_In. auto. }
  destruct (py_max_nonempty (l := dict_values (name_scores db query threshold)))
    as (m & Hm).
  { intros E. apply (in_map snd) in H0. unfold dict_values in E.
    rewrite E in H0. destruct H0. }
  exists m. split; auto. split; auto.
  apply py_max_spec in Hm. destruct Hm as (Hin & Hle). split.
  - unfold dict_values in Hin. apply in_map_iff in Hin.
    destruct Hin as ([n s] & <- & Hin). eauto.
  - intros n s H. apply Hle. apply (in_map snd) in H. exact H.
Qed.

(** ** The class state *)

Lemma get_by_name_populated db query threshold c :
  _scrolls_db c = Some db ->
  get_by_name query threshold c = (lookup db (lower query) threshold, c).
Proof.
  intros H. unfold get_by_name, pbind, get_db, ret.
  rewrite H. unfold search, pbind, get_db, lift. now rewrite H.
Qed.

Lemma get_by_name_uninitialized query threshold c :
  _scrolls_db c = None ->
  get_by_name query threshold c
  = (load_scrolls_resume (server (requests c)) ;;; search (lower query) threshold)
      (mkCls None (S (requests c))).
Proof.
  intros H. unfold get_by_name, pbind, get_db.
  rewrite H. unfold load_scrolls, pbind, send_request. now rewrite H.
Qed.

(** ** The lookup on a populated cache *)

(** C1: when the lower-cased query is not a cached name and no cached name
    scores at or above the threshold (so also on an empty catalog), the
    lookup does not raise [ScrollNotFound]: [max] is taken over the empty
    collection of candidates and the call ends in [ValueError]. *)
Theorem C1_no_candidate_raises_ValueError db query threshold c :
  _scrolls_db c = Some db ->
  dict_mem (lower query) db = false ->
  (forall n, In n (dict_keys db) ->
             ge_threshold (score (lower query) n) threshold = false) ->
  get_by_name query threshold c = (Raise ValueError, c).
Proof.
  intros Hdb Hmiss Hlow. rewrite (get_by_name_populated _ _ _ Hdb).
  unfold lookup. rewrite Hmiss. unfold fuzzy_search.
  now rewrite (name_scores_empty _ _ _ Hlow).
Qed.

(** C3: when some cached name reaches the threshold, the names collected
    are exactly the cached names that reach the threshold and whose rounded
    score equals the maximum over those names (equality of the numbers); a
    name that scores lower, by however little, is not collected, and when
    one name alone has the maximum, its record is returned. *)
Theorem C3_top_scores_grouped db query threshold c n0 :
  _scrolls_db c = Some db ->
  dict_mem (lower query) db = false ->
  In n0 (dict_keys db) ->
  ge_threshold (score (lower query) n0) threshold = true ->
  exists max_score,
    py_max (dict_values (name_scores db (lower query) threshold)) = Ok max_score /\
    (exists n, In n (dict_keys db) /\
               ge_threshold (score (lower query) n) threshold = true /\
               score (lower query) n = max_score) /\
    (forall n, In n (dict_keys db) ->
               ge_threshold (score (lower query) n) threshold = true ->
               score (lower query) n <= max_score) /\
    (forall n,
        In n (closest_items (name_scores db (lower query) threshold) max_score)
        <-> In n (dict_keys db) /\
            ge_threshold (score (lower query) n) threshold = true /\
            score (lower query) n = max_score) /\
    (forall n,
        score (lower query) n < max_score ->
        ~ In n (closest_items (name_scores db (lower query) threshold) max_score)) /\
    (forall n,
        In n (dict_keys db) ->
        ge_threshold (score (lower query) n) threshold = true ->
        score (lower query) n = max_score ->
        (forall m, In m (dict_keys db) ->
                   ge_threshold (score (lower query) m) threshold = true ->
                   score (lower query) m = max_score -> m = n) ->
        exists r, dict_get db n = Some r /\
                  get_by_name query threshold c = (Ok r, c)).
Proof.
  intros Hdb Hmiss Hk Hge.
  destruct (max_score_spec db (lower query) threshold n0 Hk Hge)
    as (M & Hmax & _ & (nM & HnM) & Hle).
  assert (Hclosest : forall n,
    In n (closest_items (name_scores db (lower query) threshold) M)
    <-> In n (dict_keys db) /\
        ge_threshold (score (lower query) n) threshold = true /\
        score (lower query) n = M).
  { intros n. rewrite closest_items_In, name_scores_In. intuition congruence. }
  exists M. split; [exact Hmax|]. split; [|split; [|split; [|split]]].
  - exists nM. apply name_scores_In in HnM. intuition congruence.
  - intros n Hn Hg. apply (Hle n). apply name_scores_In. auto.
  - exact Hclosest.
  - intros n Hlt Hin. apply Hclosest in Hin. lia.
  - intros n Hn Hg Hs Huniq.
    destruct (dict_keys_get db n Hn) as (r & Hr). exists r. split; auto.
    rewrite (get_by_name_populated _ _ _ Hdb). unfold lookup. rewrite Hmiss.
    unfold fuzzy_search. rewrite Hmax. simpl.
    rewrite (NoDup_all_equal (n := n)).
    + unfold getitem. now rewrite Hr.
    + apply closest_items_NoDup, name_scores_wf.
    + apply Hclosest. auto.
    + intros x Hx. apply Hclosest in Hx. apply Huniq; tauto.
Qed.

(** C4: on a populated cache, a query whose lower-cased form is a cached
    name gets the record stored under that name, whatever the threshold and
    whatever the scoring function; no request is sent and the class is left
    as it was. *)
Theorem C4_exact_match_short_circuit db query threshold c cached r :
  _scrolls_db c = Some db ->
  dict_get db cached = Some r ->
  lower query = cached ->
  get_by_name query threshold c = (Ok r, c).
Proof.
  intros Hdb Hr Hq. rewrite (get_by_name_populated _ _ _ Hdb).
  unfold lookup, dict_mem, getitem. rewrite Hq. now rewrite Hr.
Qed.

(** C7 (amended): when two or more names are collected at the maximum, the
    call raises [MultipleScrollsFound] carrying the [name] of the record of
    each collected name, in the order collected, and the query in lower
    case. *)
Theorem C7_ambiguous_carries_names_and_lowered_query
    db query threshold c max_score n1 n2 others :
  _scrolls_db c = Some db ->
  dict_mem (lower query) db = false ->
  py_max (dict_values (name_scores db (lower query) threshold)) = Ok max_score ->
  closest_items (name_scores db (lower query) threshold) max_score
  = n1 :: n2 :: others ->
  exists scrolls,
    Forall2 (fun n r => dict_get db n = Some r) (n1 :: n2 :: others) scrolls /\
    get_by_name query threshold c
    = (Raise (MultipleScrollsFound (map name scrolls) (lower query)), c).
Proof.
  intros Hdb Hmiss Hmax Hclosest.
  destruct (comprehension_getitem db (n1 :: n2 :: others)) as (scrolls & E & F).
  { intros n Hn. rewrite <- Hclosest in Hn.
    apply closest_items_In, name_scores_In in Hn. tauto. }
  exists scrolls. split; auto.
  rewrite (get_by_name_populated _ _ _ Hdb). unfold lookup. rewrite Hmiss.
  unfold fuzzy_search. rewrite Hmax. cbn [bind]. rewrite Hclosest.
  cbv beta iota. now rewrite E.
Qed.

End ResolverFacts.

(** ** The message of [MultipleScrollsFound] *)

Lemma append_assoc (a b c : string) : (a ++ b) ++ c = a ++ b ++ c.
Proof. induction a as [|x a IH]; simpl; [reflexivity|now rewrite IH]. Qed.

Lemma join_values_strings sep (names : list string) :
  join_values sep (map JStr names) = Ok (join sep names).
Proof.
  induction names as [|x names IH]; simpl; auto.
  destruct names as [|y names]; auto.
  change (map JStr (y :: names)) with (JStr y :: map JStr names) in *.
  cbv beta iota. rewrite IH. reflexivity.
Qed.

(** Every item of a joined list stands in the result. *)
Lemma join_contains sep (names : list string) n :
  In n names -> exists before after, join sep names = before ++ n ++ after.
Proof.
  induction names as [|x names IH]; intros Hin; [destruct Hin|].
  destruct names as [|y names].
  - destruct Hin as [<-|[]]. exists "", "". simpl.
    induction x as [|a x IHx]; simpl; [reflexivity|now rewrite <- IHx].
  - destruct Hin as [<-|Hin].
    + exists "", (sep ++ join sep (y :: names)). reflexivity.
    + destruct (IH Hin) as (before & after & E).
      exists (x ++ sep ++ before), after.
      change (join sep (x :: y :: names)) with (x ++ sep ++ join sep (y :: names)).
      rewrite E. now rewrite !append_assoc.
Qed.

(** C8: the message lists every carried name, joined by a comma and a
    space, when there are five names or fewer; with more than five it says
    that too many scrolls match and depends on the search term alone. *)
Theorem C8_message_enumerates_up_to_five (names : list string) (search_term : string) :
  MultipleScrollsFound_str (map JStr names) search_term
  = Ok (if (5 <? List.length names)%nat
        then "Too many scrolls matches your query '" ++ search_term ++ "'"
        else "Multiple scrolls match '" ++ search_term ++ "'z: "
             ++ join ", " names)
  /\ (forall n, In n names ->
        exists before after, join ", " names = before ++ n ++ after).
Proof.
  split.
  - unfold MultipleScrollsFound_str. rewrite length_map.
    destruct (5 <? List.length names)%nat; auto.
    now rewrite join_values_strings.
  - intros n. apply join_contains.
Qed.

(** ** Loading the catalog *)

Lemma entry_of_spec scroll_data k r :
  entry_of scroll_data = Ok (k, r) ->
  exists n, Scroll_init scroll_data = Ok r /\ name r = JStr n /\ k = lower n.
Proof.
  unfold entry_of, lower_value. destruct (Scroll_init scroll_data) as [s|e]; simpl;
    [|discriminate].
  destruct (name s) eqn:E; simpl; try discriminate.
  intros [= <- <-]. eauto.
Qed.

Lemma entries_of_spec items : forall entries,
  entries_of items = Ok entries ->
  Forall2 (fun scroll_data e =>
             exists n, Scroll_init scroll_data = Ok (snd e) /\
                       name (snd e) = JStr n /\ fst e = lower n)
          items entries.
Proof.
  unfold entries_of.
  induction items as [|x items IH]; simpl; intros entries H.
  - injection H as <-. constructor.
  - destruct (entry_of x) as [[k r]|] eqn:E; simpl in H; [|discriminate].
    destruct (comprehension entry_of items) as [es|]; simpl in H; [|discriminate].
    injection H as <-. constructor; auto.
    simpl. now apply entry_of_spec.
Qed.

(** The loop of [__load_scrolls] over records that all construct. *)
Lemma for_each_entries items : forall entries db k,
  entries_of items = Ok entries ->
  for_each items load_one (mkCls (Some db) k)
  = (Ok tt, mkCls (Some (assign_all entries db)) k).
Proof.
  unfold entries_of.
  induction items as [|x items IH]; simpl; intros entries db k H.
  - injection H as <-. reflexivity.
  - destruct (entry_of x) as [[key r]|] eqn:E; simpl in H; [|discriminate].
    destruct (comprehension entry_of items) as [es|] eqn:Es; simpl in H;
      [|discriminate].
    injection H as <-.
    unfold entry_of in E. unfold pbind at 1. unfold load_one at 1.
    unfold pbind at 1. unfold lift at 1.
    destruct (Scroll_init x) as [s|]; simpl in E; [|discriminate].
    unfold pbind at 1. unfold lift at 1.
    destruct (lower_value (name s)) as [key'|]; simpl in E; [|discriminate].
    injection E as -> ->. unfold db_setitem at 1. simpl.
    now rewrite (IH es).
Qed.

Lemma find_append (A : Type) (f : A -> bool) (l l' : list A) :
  find f (l ++ l')%list
  = match find f l with Some x => Some x | None => find f l' end.
Proof.
  induction l as [|x l IH]; simpl; auto. now destruct (f x).
Qed.

Lemma assign_all_get entries : forall db k,
  dict_get (assign_all entries db) k
  = match last_under k entries with
    | Some r => Some r
    | None => dict_get db k
    end.
Proof.
  unfold assign_all, last_under.
  induction entries as [|[k' r'] entries IH]; intros db k; simpl; auto.
  rewrite IH. rewrite find_append. simpl.
  destruct (find (fun e => String.eqb k (fst e)) (rev entries)); simpl; auto.
  destruct (String.eqb k k') eqn:E; simpl.
  - apply String.eqb_eq in E. subst. apply dict_get_set_same.
  - apply String.eqb_neq in E. now apply dict_get_set_other.
Qed.

Lemma assign_all_wf entries : forall db,
  dict_wf db -> dict_wf (assign_all entries db).
Proof.
  unfold assign_all.
  induction entries as [|e entries IH]; intros db H; simpl; auto.
  apply IH. now apply dict_set_wf.
Qed.

(** [populate] on a document whose [data] member is a list of records that
    all construct. *)
Lemma populate_entries d items entries c :
  dict_get d "data" = Some (JArr items) ->
  entries_of items = Ok entries ->
  populate (JObj d) c
  = (Ok tt, mkCls (Some (assign_all entries [])) (requests c)).
Proof.
  intros Hd He. unfold populate. unfold pbind at 1. unfold set_db at 1.
  unfold pbind at 1. unfold lift at 1. unfold get_default. rewrite Hd.
  unfold pbind at 1. unfold lift at 1. simpl py_iter. cbv beta iota.
  now apply for_each_entries.
Qed.

(** Reading a field the constructor knows is not affected by dropping the
    other fields. *)
Lemma dict_get_known_only (d : dict json) k :
  existsb (String.eqb k) known_fields = true ->
  dict_get (known_only d) k = dict_get d k.
Proof.
  intros Hk. unfold known_only.
  induction d as [|[k' v] d IH]; [reflexivity|].
  cbn [filter fst dict_get].
  destruct (String.eqb k k') eqn:E.
  - apply String.eqb_eq in E. subst k'. rewrite Hk. cbn [dict_get].
    now rewrite String.eqb_refl.
  - destruct (existsb (String.eqb k') known_fields); cbn [dict_get]; auto.
    now rewrite E.
Qed.

Lemma Scroll_init_known_only (d : dict json) :
  Scroll_init (JObj (known_only d)) = Scroll_init (JObj d).
Proof.
  unfold Scroll_init, subscript, get_default, getitem.
  now rewrite !dict_get_known_only by reflexivity.
Qed.

Lemma complete_entry scroll_data :
  complete scroll_data = true ->
  exists r n, entry_of scroll_data = Ok (lower n, r) /\
              Scroll_init scroll_data = Ok r /\ name r = JStr n /\
              subscript scroll_data "name" = Ok (JStr n).
Proof.
  destruct scroll_data as [| | | | |d]; try discriminate.
  unfold complete. intros H. apply andb_true_iff in H. destruct H as (Hall & Hname).
  rewrite forallb_forall in Hall.
  assert (Hget : forall k, In k required_fields -> exists v, dict_get d k = Some v).
  { intros k Hk. apply dict_keys_get, dict_mem_keys, Hall, Hk. }
  destruct (dict_get d "name") as [[| | |n| |]|] eqn:En; try discriminate.
  unfold entry_of, Scroll_init, subscript, get_default, getitem. rewrite En.
  repeat match goal with
         | |- context [dict_get d ?k] =>
             lazymatch k with
             | "passiverules" => fail
             | "abilities" => fail
             | _ => idtac
             end;
             let v := fresh "v" in
             let E := fresh "E" in
             destruct (Hget k) as (v & E);
             [unfold required_fields; simpl; tauto | rewrite E; clear E]
         end.
  cbn [bind]. eexists. exists n. repeat split.
Qed.

Lemma complete_entries items :
  forallb complete items = true ->
  exists entries,
    entries_of items = Ok entries /\
    forall scroll_data, In scroll_data items ->
      exists r n, Scroll_init scroll_data = Ok r /\
                  subscript scroll_data "name" = Ok (JStr n) /\
                  name r = JStr n /\ In (lower n, r) entries.
Proof.
  unfold entries_of. induction items as [|x items IH]; simpl; intros H.
  - exists []. split; auto. intros ? [].
  - apply andb_true_iff in H. destruct H as (Hx & Hitems).
    destruct (complete_entry x Hx) as (r & n & E & Hinit & Hname & Hsub).
    destruct (IH Hitems) as (entries & Es & Hall).
    exists ((lower n, r) :: entries). rewrite E, Es. split; auto.
    intros y [<-|Hy].
    + exists r, n. repeat split; auto. now left.
    + destruct (Hall y Hy) as (r' & n' & ? & ? & ? & ?).
      exists r', n'. repeat split; auto. now right.
Qed.

Lemma last_under_In k r entries :
  In (k, r) entries -> exists r', last_under k entries = Some r'.
Proof.
  intros Hin. unfold last_under.
  destruct (find (fun e => String.eqb k (fst e)) (rev entries)) as [e|] eqn:E.
  - simpl. eauto.
  - apply in_rev in Hin. apply (find_none _ _ E) in Hin.
    simpl in Hin. now rewrite String.eqb_refl in Hin.
Qed.


(** C10: when every record of the fetched list constructs, population
    raises nothing, each record is keyed by its lower-cased name, and the
    cache maps each key to the last record of the list that has it. *)
Theorem C10_last_write_wins d items entries c :
  dict_get d "data" = Some (JArr items) ->
  entries_of items = Ok entries ->
  exists db,
    populate (JObj d) c = (Ok tt, mkCls (Some db) (requests c)) /\
    Forall2 (fun scroll_data e =>
               exists n, Scroll_init scroll_data = Ok (snd e) /\
                         name (snd e) = JStr n /\ fst e = lower n)
            items entries /\
    dict_wf db /\
    (forall k, dict_get db k = last_under k entries).
Proof.
  intros Hd He. exists (assign_all entries []). split; [|split; [|split]].
  - now apply populate_entries with (items := items).
  - now apply entries_of_spec.
  - apply assign_all_wf. constructor.
  - intros k. rewrite assign_all_get. now destruct (last_under k entries).
Qed.

(** ** Requests *)

Lemma for_each_requests (body : json -> py unit) items :
  (forall x c, requests (snd (body x c)) = requests c) ->
  forall c, requests (snd (for_each items body c)) = requests c.
Proof.
  intros Hbody. induction items as [|x items IH]; intros c; simpl; auto.
  unfold pbind. specialize (Hbody x c).
  destruct (body x c) as [[[]|e] c']; simpl in *; [|exact Hbody].
  now rewrite IH.
Qed.

Lemma populate_requests data c : requests (snd (populate data c)) = requests c.
Proof.
  unfold populate. unfold pbind at 1. unfold set_db at 1.
  unfold pbind at 1. unfold lift at 1.
  destruct (get_default data "data" (JArr [])) as [v|e]; [|reflexivity].
  unfold pbind at 1. unfold lift at 1.
  destruct (py_iter v) as [items|e]; [|reflexivity].
  rewrite for_each_requests; [reflexivity|].
  intros x c0. unfold load_one, pbind, lift, db_setitem.
  destruct (Scroll_init x); [|reflexivity].
  destruct (lower_value _); [|reflexivity].
  now destruct (_scrolls_db c0).
Qed.

Lemma load_scrolls_resume_requests resp c :
  requests (snd (load_scrolls_resume resp c)) = requests c.
Proof.
  unfold load_scrolls_resume, pbind, receive.
  destruct resp; try reflexivity. unfold ret. apply populate_requests.
Qed.

(** ** Failed and repeated fetches *)

Section Retry.
Variable partial_ratio : string -> string -> Z.
Variable server : nat -> response.

Local Abbreviation lookup := (lookup partial_ratio).
Local Abbreviation search := (search partial_ratio).
Local Abbreviation get_by_name := (get_by_name partial_ratio server).

Lemma search_state query threshold c : snd (search query threshold c) = c.
Proof.
  unfold search, pbind, get_db. now destruct (_scrolls_db c).
Qed.

Lemma search_populated db query threshold k :
  search query threshold (mkCls (Some db) k)
  = (lookup db query threshold, mkCls (Some db) k).
Proof. reflexivity. Qed.

(** Whatever the cache holds, the lookup never ends in [ScrollNotFound]:
    [max] raises first when there is no candidate, and when it returns, a
    candidate has the maximum. *)
Lemma lookup_never_ScrollNotFound db query threshold :
  lookup db query threshold <> Raise ScrollNotFound.
Proof.
  unfold lookup. destruct (dict_mem query db).
  - unfold getitem. destruct (dict_get db query); discriminate.
  - unfold fuzzy_search.
    destruct (py_max (dict_values (name_scores partial_ratio db query threshold)))
      as [m|e] eqn:Hmax; cbn [bind].
    + apply py_max_spec in Hmax. destruct Hmax as (Hin & _).
      unfold dict_values in Hin. apply in_map_iff in Hin.
      destruct Hin as ([n s] & Hs & Hin). simpl in Hs. subst s.
      apply closest_items_In in Hin.
      destruct (closest_items _ m) as [|a [|b l]] eqn:Hc.
      * destruct Hin.
      * unfold getitem. destruct (dict_get db a); discriminate.
      * destruct (comprehension_getitem db (a :: b :: l)) as (rs & E & _).
        { intros x Hx. rewrite <- Hc in Hx.
          apply closest_items_In, name_scores_In in Hx. tauto. }
        rewrite E. discriminate.
    + destruct (dict_values _); simpl in Hmax; [|discriminate].
      injection Hmax as <-. discriminate.
Qed.

(** When the request or [json.loads] fails during the lazy load, the call
    raises that failure and [_scrolls_db] is still [None]; the next call
    therefore sends a new request and loads from its response. *)
Lemma failed_request_is_retried query threshold c :
  _scrolls_db c = None ->
  server (requests c) = TransportFailure \/ server (requests c) = Unparseable ->
  (exists e, (e = ClientError \/ e = JSONDecodeError) /\
     get_by_name query threshold c = (Raise e, mkCls None (S (requests c)))) /\
  (forall query' threshold',
     requests (snd (get_by_name query' threshold' (mkCls None (S (requests c)))))
     = S (S (requests c))) /\
  (forall query' threshold' data,
     server (S (requests c)) = Document data ->
     get_by_name query' threshold' (mkCls None (S (requests c)))
     = (populate data ;;; search (lower query') threshold')
         (mkCls None (S (S (requests c))))).
Proof.
  intros Hnone Hfail. split; [|split].
  - rewrite get_by_name_uninitialized by exact Hnone.
    unfold pbind, load_scrolls_resume, receive, raise.
    destruct Hfail as [-> | ->]; eauto.
  - intros q t. rewrite get_by_name_uninitialized by reflexivity.
    cbn [requests]. unfold pbind at 1.
    pose proof (load_scrolls_resume_requests (server (S (requests c)))
                  (mkCls None (S (S (requests c))))) as Hr.
    destruct (load_scrolls_resume _ _) as [[[]|e] c']; cbn [snd requests] in *.
    + now rewrite search_state.
    + exact Hr.
  - intros q t data Hdoc. rewrite get_by_name_uninitialized by reflexivity.
    cbn [requests]. rewrite Hdoc. reflexivity.
Qed.

End Retry.

(** ** Loading does not depend on what the class held *)

Lemma load_one_shape x odb k :
  load_one x (mkCls odb k)
  = match entry_of x with
    | Raise e => (Raise e, mkCls odb k)
    | Ok (key, r) =>
        match odb with
        | Some db => (Ok tt, mkCls (Some (dict_set db key r)) k)
        | None => (Raise TypeError, mkCls None k)
        end
    end.
Proof.
  unfold load_one, entry_of, pbind, lift, db_setitem.
  destruct (Scroll_init x) as [r|]; simpl; auto.
  destruct (lower_value (name r)); simpl; auto.
  now destruct odb.
Qed.

Lemma for_each_load_one_frame items : forall odb k k0,
  for_each items load_one (mkCls odb k)
  = (fst (for_each items load_one (mkCls odb k0)),
     mkCls (_scrolls_db (snd (for_each items load_one (mkCls odb k0)))) k).
Proof.
  induction items as [|x items IH]; intros odb k k0; simpl; auto.
  unfold pbind. rewrite !load_one_shape.
  destruct (entry_of x) as [[key r]|]; auto.
  destruct odb; auto.
Qed.

Lemma for_each_load_one_set items : forall db k,
  exists db',
    _scrolls_db (snd (for_each items load_one (mkCls (Some db) k))) = Some db'.
Proof.
  induction items as [|x items IH]; intros db k; simpl; eauto.
  unfold pbind. rewrite load_one_shape.
  destruct (entry_of x) as [[key r]|]; simpl; eauto.
Qed.

Lemma populate_frame data c c0 :
  populate data c
  = (fst (populate data c0),
     mkCls (_scrolls_db (snd (populate data c0))) (requests c)).
Proof.
  unfold populate. unfold pbind at 1 3 5. unfold set_db at 1 2 3.
  unfold pbind at 1 3 5. unfold lift at 1 3 5.
  destruct (get_default data "data" (JArr [])) as [v|e]; [|reflexivity].
  unfold pbind at 1 2 3. unfold lift at 1 2 3.
  destruct (py_iter v) as [items|e]; [|reflexivity].
  apply for_each_load_one_frame.
Qed.

Lemma populate_set data c :
  exists db, _scrolls_db (snd (populate data c)) = Some db.
Proof.
  unfold populate. unfold pbind at 1. unfold set_db at 1.
  unfold pbind at 1. unfold lift at 1.
  destruct (get_default data "data" (JArr [])) as [v|e]; [|simpl; eauto].
  unfold pbind at 1. unfold lift at 1.
  destruct (py_iter v) as [items|e]; [|simpl; eauto].
  apply for_each_load_one_set.
Qed.

(** ** A load that fails after the cache was assigned *)

(** C5: the cache does not stay uninitialized when the load fails after
    line 115.  When the response is a document whose population raises (it
    is no object, its [data] cannot be iterated, a record cannot be
    constructed or has a name that is no string), the call raises that
    exception with [_scrolls_db] already assigned; the next call finds the
    cache set, sends no request and answers from what was assigned. *)
Theorem C5_failed_population_is_not_retried
    partial_ratio server data e query threshold c :
  _scrolls_db c = None ->
  server (requests c) = Document data ->
  fst (populate data (mkCls None 0)) = Raise e ->
  exists db,
    get_by_name partial_ratio server query threshold c
    = (Raise e, mkCls (Some db) (S (requests c))) /\
    forall query' threshold',
      get_by_name partial_ratio server query' threshold'
        (mkCls (Some db) (S (requests c)))
      = (lookup partial_ratio db (lower query') threshold',
         mkCls (Some db) (S (requests c))).
Proof.
  intros Hnone Hdoc Hfail.
  destruct (populate_set data (mkCls None 0)) as (db & Hdb).
  exists db. split.
  - rewrite get_by_name_uninitialized by exact Hnone. rewrite Hdoc.
    unfold pbind at 1. unfold load_scrolls_resume, receive. unfold pbind at 1.
    unfold ret at 1.
    rewrite (populate_frame data (mkCls None (S (requests c))) (mkCls None 0)).
    now rewrite Hfail, Hdb.
  - intros q t. now apply get_by_name_populated.
Qed.

(** ** Callers on the event loop *)

Section EventLoopFacts.
Variable partial_ratio : string -> string -> Z.
Variable server : nat -> response.

Local Abbreviation lookup := (lookup partial_ratio).
Local Abbreviation search := (search partial_ratio).
Local Abbreviation get_by_name := (get_by_name partial_ratio server).
Local Abbreviation turn := (turn partial_ratio server).
Local Abbreviation turn_at := (turn_at partial_ratio server).
Local Abbreviation run := (run partial_ratio server).
Local Abbreviation catalog := (catalog server).
Local Abbreviation task_ok := (task_ok partial_ratio server).
Local Abbreviation cache_ok := (cache_ok server).

(** A call is its three turns taken one after the other. *)
Lemma get_by_name_three_turns query threshold c :
  let (t1, c1) := turn (Called query threshold) c in
  let (t2, c2) := turn t1 c1 in
  let (t3, c3) := turn t2 c2 in
  (t3, c3) = (Returned (fst (get_by_name query threshold c)),
              snd (get_by_name query threshold c)).
Proof.
  destruct (_scrolls_db c) as [db|] eqn:Hdb.
  - rewrite get_by_name_populated with (db := db) by exact Hdb. simpl.
    rewrite Hdb. unfold search, pbind, get_db, lift. rewrite Hdb. reflexivity.
  - rewrite get_by_name_uninitialized by exact Hdb. cbn [turn]. rewrite Hdb.
    unfold send_request. cbn [turn]. unfold pbind at 1 2.
    rewrite Hdb.
    destruct (load_scrolls_resume (server (requests c))
                (mkCls None (S (requests c)))) as [[[]|e] c1];
      cbn [turn fst snd].
    + now destruct (search (lower query) threshold c1).
    + reflexivity.
Qed.

(** A response that loads leaves its catalog, whatever was there. *)
Lemma load_scrolls_resume_ok k c :
  fst (load_scrolls_resume (server k) (mkCls None 0)) = Ok tt ->
  load_scrolls_resume (server k) c
  = (Ok tt, mkCls (Some (catalog k)) (requests c)).
Proof.
  unfold catalog, load_scrolls_resume, pbind, receive.
  destruct (server k) as [| |data]; try discriminate.
  unfold ret. intros Hok. rewrite (populate_frame data c (mkCls None 0)).
  rewrite Hok. destruct (populate_set data (mkCls None 0)) as (db & ->).
  reflexivity.
Qed.

Hypothesis every_response_loads :
  forall k, fst (load_scrolls_resume (server k) (mkCls None 0)) = Ok tt.

Lemma task_ok_mono c c' call t :
  (requests c <= requests c')%nat ->
  (_scrolls_db c <> None -> _scrolls_db c' <> None) ->
  task_ok c call t -> task_ok c' call t.
Proof.
  intros Hle Hset [H|[(k & Hk & H)|[(H & Hdb)|(k & Hk & H)]]].
  - now left.
  - right; left. exists k. split; [lia|auto].
  - right; right; left. auto.
  - right; right; right. exists k. split; [lia|auto].
Qed.

Lemma turn_keeps c call t :
  task_ok c call t -> cache_ok c ->
  task_ok (snd (turn t c)) call (fst (turn t c)) /\
  cache_ok (snd (turn t c)) /\
  (requests c <= requests (snd (turn t c)))%nat /\
  (_scrolls_db c <> None -> _scrolls_db (snd (turn t c)) <> None) /\
  (requests (snd (turn t c)) + (if is_called t then 0 else 1)
   <= requests c + 1)%nat /\
  is_called (fst (turn t c)) = false.
Proof.
  intros [H|[(k & Hk & H)|[(H & Hdb)|(k & Hk & H)]]] Hc; subst t;
    cbn [turn is_called].
  - destruct Hc as [Hn|(k & Hk & Hs)].
    + rewrite Hn. unfold send_request. cbn [fst snd requests _scrolls_db].
      rewrite Hn.
      split; [|split; [|split; [|split; [|split]]]]; try lia; auto;
      try congruence.
      * right; left. exists (requests c). cbn [requests].
        split; [lia|reflexivity].
      * now left.
    + rewrite Hs. unfold search, pbind, get_db, lift. rewrite Hs.
      cbn [fst snd].
      split; [|split; [|split; [|split; [|split]]]]; try lia; auto;
      try congruence.
      * right; right; right. exists k. split; auto.
      * right. exists k. split; auto.
  - rewrite load_scrolls_resume_ok by apply every_response_loads.
    cbn [fst snd _scrolls_db requests].
    split; [|split; [|split; [|split; [|split]]]]; try lia; auto;
      try congruence.
    + right; right; left. split; [reflexivity|discriminate].
    + right. exists k. cbn [_scrolls_db requests]. split; auto.
  - destruct Hc as [Hn|(k & Hk & Hs)]; [congruence|].
    unfold search, pbind, get_db, lift. rewrite Hs. cbn [fst snd].
    split; [|split; [|split; [|split; [|split]]]]; try lia; auto;
      try congruence.
    + right; right; right. exists k. split; auto.
    + right. exists k. split; auto.
  - cbn [fst snd].
    split; [|split; [|split; [|split; [|split]]]]; try lia; auto;
      try congruence.
    right; right; right. exists k. split; auto.
Qed.

Lemma started_cons t ts :
  started (t :: ts) = ((if is_called t then 0 else 1) + started ts)%nat.
Proof. unfold started. simpl. now destruct (is_called t). Qed.

Lemma started_le_length ts : (started ts <= List.length ts)%nat.
Proof.
  induction ts as [|t ts IH]; [apply Nat.le_refl|].
  rewrite started_cons. simpl. destruct (is_called t); lia.
Qed.

Lemma turn_at_keeps ts : forall i calls c,
  Forall2 (task_ok c) calls ts -> cache_ok c ->
  Forall2 (task_ok (snd (turn_at i ts c))) calls (fst (turn_at i ts c)) /\
  cache_ok (snd (turn_at i ts c)) /\
  (requests c <= requests (snd (turn_at i ts c)))%nat /\
  (_scrolls_db c <> None -> _scrolls_db (snd (turn_at i ts c)) <> None) /\
  (requests (snd (turn_at i ts c)) + started ts
   <= requests c + started (fst (turn_at i ts c)))%nat.
Proof.
  induction ts as [|t ts IH]; intros i calls c Hts Hc.
  - simpl. destruct i; simpl; repeat split; auto.
  - inversion Hts as [|call ? calls' ? Ht Hrest]; subst.
    destruct i as [|i]; cbn [turn_at].
    + destruct (turn_keeps Ht Hc) as (Ht' & Hc' & Hle & Hset & Hsent & Hcalled).
      destruct (turn t c) as [t' c']. cbn [fst snd] in *.
      split; [|split; [|split; [|split]]]; auto.
      * constructor; auto.
        eapply Forall2_impl; [|exact Hrest].
        intros a b. now apply task_ok_mono.
      * rewrite !started_cons. rewrite Hcalled. lia.
    + destruct (IH i calls' c Hrest Hc) as (Hrest' & Hc' & Hle & Hset & Hsent).
      destruct (turn_at i ts c) as [rest' c']. cbn [fst snd] in *.
      split; [|split; [|split; [|split]]]; auto.
      * constructor; auto. now apply task_ok_mono with (c := c).
      * rewrite !started_cons. lia.
Qed.

Lemma run_cons i schedule ts c :
  run (i :: schedule) ts c
  = run schedule (fst (turn_at i ts c)) (snd (turn_at i ts c)).
Proof. unfold run. simpl. now destruct (turn_at i ts c). Qed.

Lemma run_keeps schedule : forall ts calls c,
  Forall2 (task_ok c) calls ts -> cache_ok c ->
  Forall2 (task_ok (snd (run schedule ts c))) calls (fst (run schedule ts c)) /\
  cache_ok (snd (run schedule ts c)) /\
  (requests (snd (run schedule ts c)) + started ts
   <= requests c + started (fst (run schedule ts c)))%nat.
Proof.
  induction schedule as [|i schedule IH]; intros ts calls c Hts Hc.
  - simpl. repeat split; auto.
  - rewrite run_cons.
    destruct (turn_at_keeps i Hts Hc) as (Hts' & Hc' & _ & _ & Hsent).
    destruct (IH _ _ _ Hts' Hc') as (Hts'' & Hc'' & Hsent').
    repeat split; auto. lia.
Qed.

(** A turn takes a caller one stage further, unless it has returned. *)
Lemma turn_stage t c : (Nat.min 3 (S (stage t)) <= stage (fst (turn t c)))%nat.
Proof.
  destruct t as [q th|q th k|q th|r]; cbn [turn].
  - destruct (_scrolls_db c).
    + match goal with
      | |- context [let (_, _) := ?x in _] => destruct x
      end. cbn [fst stage]. lia.
    + unfold send_request. cbn [fst stage]. lia.
  - destruct (load_scrolls_resume (server k) c) as [[[]|e] c'];
      cbn [fst stage]; lia.
  - match goal with
    | |- context [let (_, _) := ?x in _] => destruct x
    end. cbn [fst stage]. lia.
  - cbn [fst stage]. lia.
Qed.

Lemma turn_at_nth ts : forall i j c,
  nth_error (fst (turn_at i ts c)) j
  = if Nat.eqb i j
    then option_map (fun t => fst (turn t c)) (nth_error ts j)
    else nth_error ts j.
Proof.
  induction ts as [|t ts IH]; intros i j c.
  - simpl. destruct i, j; simpl; auto; now destruct (Nat.eqb i j).
  - destruct i as [|i], j as [|j]; cbn [turn_at Nat.eqb nth_error option_map].
    + now destruct (turn t c).
    + now destruct (turn t c).
    + now destruct (turn_at i ts c).
    + specialize (IH i j c). destruct (turn_at i ts c). exact IH.
Qed.

(** A caller scheduled three times has returned. *)
Lemma run_stage schedule : forall ts c j t,
  nth_error ts j = Some t ->
  exists t',
    nth_error (fst (run schedule ts c)) j = Some t' /\
    (Nat.min 3 (stage t + count_occ Nat.eq_dec schedule j) <= stage t')%nat.
Proof.
  induction schedule as [|i schedule IH]; intros ts c j t Ht.
  - exists t. split; auto. cbn [count_occ]. lia.
  - rewrite run_cons.
    pose proof (turn_at_nth ts i j c) as Hn. rewrite Ht in Hn.
    cbn [count_occ]. destruct (Nat.eq_dec i j) as [->|Hne].
    + rewrite Nat.eqb_refl in Hn. simpl in Hn.
      destruct (IH _ (snd (turn_at j ts c)) _ _ Hn) as (t' & Ht' & Hs).
      exists t'. split; auto. pose proof (turn_stage t c). lia.
    + apply Nat.eqb_neq in Hne. rewrite Hne in Hn.
      destruct (IH _ (snd (turn_at i ts c)) _ _ Hn) as (t' & Ht' & Hs).
      exists t'. split; auto.
Qed.

Lemma turn_at_app done : forall t rest c,
  turn_at (List.length done) (done ++ t :: rest)%list c
  = ((done ++ fst (turn t c) :: rest)%list, snd (turn t c)).
Proof.
  induction done as [|d done IH]; intros t rest c; simpl.
  - now destruct (turn t c).
  - now rewrite IH.
Qed.

Lemma in_flight_app ts ts' :
  in_flight (ts ++ ts')%list = (in_flight ts + in_flight ts')%nat.
Proof. unfold in_flight. now rewrite filter_app, length_app. Qed.

(** Callers that all take their first turn while the cache is unset each
    send a request: as many requests are in flight as there are callers. *)
Lemma first_turns_all_fetch calls : forall done c,
  _scrolls_db c = None ->
  in_flight (fst (run (seq (List.length done) (List.length calls))
                      (done ++ calls_of calls)%list c))
  = (in_flight done + List.length calls)%nat /\
  requests (snd (run (seq (List.length done) (List.length calls))
                     (done ++ calls_of calls)%list c))
  = (requests c + List.length calls)%nat.
Proof.
  induction calls as [|[q th] calls IH]; intros done c Hn.
  - simpl. rewrite in_flight_app. change (in_flight []) with 0%nat. split; lia.
  - cbn [List.length seq calls_of map]. rewrite run_cons.
    fold (calls_of calls). rewrite turn_at_app. cbn [fst snd turn].
    rewrite Hn. unfold send_request. cbn [fst snd]. rewrite Hn.
    specialize (IH (done ++ [Suspended (lower q) th (requests c)])%list
                   (mkCls None (S (requests c))) eq_refl).
    rewrite length_app, Nat.add_1_r in IH. rewrite <- app_assoc in IH.
    cbn [app requests] in IH. destruct IH as (IH1 & IH2).
    rewrite IH1, IH2. rewrite in_flight_app.
    change (in_flight [Suspended (lower q) th (requests c)]) with 1%nat.
    split; lia.
Qed.


End EventLoopFacts.

(** * Worked instances *)

Example sample_scroll_init :
  Scroll_init (record 2 "Fon") = Ok (sample_scroll 2 "Fon").
Proof. reflexivity. Qed.

Example first_call_loads_foo_fon :
  get_by_name sample_ratio (serve foo_fon) "Fon" 100 fresh
  = (Ok (sample_scroll 2 "Fon"), foo_fon_loaded).
Proof. reflexivity. Qed.

Example first_call_loads_foo_bar :
  snd (get_by_name sample_ratio (serve foo_bar) "Bar" 100 fresh)
  = foo_bar_loaded.
Proof. reflexivity. Qed.

(** A fetch that yields a JSON list leaves the cache set to [{}]: the
    assignment of line 115 comes before the access that fails. *)
Example non_object_document_leaves_empty_cache :
  get_by_name sample_ratio (serve (JArr [])) "foo" default_threshold fresh
  = (Raise AttributeError, mkCls (Some []) 1).
Proof. reflexivity. Qed.

Lemma C1_empty_catalog_witness :
  get_by_name sample_ratio (serve (document [])) "anything" default_threshold
    (mkCls (Some []) 1)
  = (Raise ValueError, mkCls (Some []) 1).
Proof.
  apply (@C1_no_candidate_raises_ValueError sample_ratio (serve (document []))
           [] "anything" default_threshold (mkCls (Some []) 1)).
  - reflexivity.
  - reflexivity.
  - intros n [].
Defined.

(** C2: with the default threshold the comparison of line 135 is made
    against 0.7 on scores that run from 0 to 100, so a name that scores 33
    is kept and, being alone, is returned. *)
Theorem C2_default_threshold_keeps_low_scores :
  score sample_ratio "fax" "foo" = 33 /\
  ge_threshold 33 default_threshold = true /\
  name_scores sample_ratio [("foo", sample_scroll 1 "Foo")] "fax"
    default_threshold = [("foo", 33)] /\
  get_by_name sample_ratio (serve (document [record 1 "Foo"])) "fax"
    default_threshold fresh
  = (Ok (sample_scroll 1 "Foo"), mkCls (Some [("foo", sample_scroll 1 "Foo")]) 1).
Proof. repeat split. Qed.

Lemma C3_single_top_witness :
  get_by_name sample_ratio (serve foo_bar) "FOA" default_threshold foo_bar_loaded
  = (Ok (sample_scroll 1 "Foo"), foo_bar_loaded)
  /\ ~ In "bar" (closest_items
                  (name_scores sample_ratio
                     [("foo", sample_scroll 1 "Foo"); ("bar", sample_scroll 2 "Bar")]
                     "foa" default_threshold) 67).
Proof.
  destruct (@C3_top_scores_grouped sample_ratio (serve foo_bar)
              [("foo", sample_scroll 1 "Foo"); ("bar", sample_scroll 2 "Bar")]
              "FOA" default_threshold foo_bar_loaded "foo")
    as (m & Hmax & _ & _ & _ & Hlower & Hone).
  - reflexivity.
  - reflexivity.
  - simpl. tauto.
  - reflexivity.
  - assert (Hm : m = 67) by (vm_compute in Hmax; congruence). subst m. split.
    + destruct (Hone "foo") as (r & Hr & Hcall).
      * simpl. tauto.
      * reflexivity.
      * reflexivity.
      * intros k [<-|[<-|[]]] _ Hs; [reflexivity|vm_compute in Hs; discriminate].
      * vm_compute in Hr. injection Hr as <-. exact Hcall.
    + apply Hlower. reflexivity.
Defined.

Lemma C4_exact_match_witness :
  get_by_name sample_ratio (serve foo_fon) "FON" 100 foo_fon_loaded
  = (Ok (sample_scroll 2 "Fon"), foo_fon_loaded).
Proof.
  apply (@C4_exact_match_short_circuit sample_ratio (serve foo_fon)
           [("foo", sample_scroll 1 "Foo"); ("fon", sample_scroll 2 "Fon")]
           "FON" 100 foo_fon_loaded "fon").
  - reflexivity.
  - reflexivity.
  - reflexivity.
Defined.

Example flaky_server_is_retried :
  (exists e, (e = ClientError \/ e = JSONDecodeError) /\
     get_by_name sample_ratio flaky "Fon" default_threshold fresh
     = (Raise e, mkCls None 1)) /\
  requests (snd (get_by_name sample_ratio flaky "Fon" default_threshold
                   (mkCls None 1))) = 2%nat /\
  get_by_name sample_ratio flaky "Fon" default_threshold (mkCls None 1)
  = (Ok (sample_scroll 2 "Fon"),
     mkCls (Some [("foo", sample_scroll 1 "Foo"); ("fon", sample_scroll 2 "Fon")]) 2).
Proof.
  destruct (@failed_request_is_retried sample_ratio flaky "Fon"
              default_threshold fresh) as (H1 & H2 & H3).
  - reflexivity.
  - left. reflexivity.
  - split; [exact H1|]. split; [apply H2|].
    change (mkCls None 1) with (mkCls None (S (requests fresh))).
    rewrite (H3 "Fon" default_threshold foo_fon); reflexivity.
Qed.

Lemma C5_bare_record_witness :
  exists db,
    get_by_name sample_ratio (serve (document [bare_record])) "Foo"
      default_threshold fresh
    = (Raise (KeyError "description"), mkCls (Some db) 1) /\
    get_by_name sample_ratio (serve (document [bare_record])) "Foo"
      default_threshold (mkCls (Some db) 1)
    = (lookup sample_ratio db (lower "Foo") default_threshold,
       mkCls (Some db) 1).
Proof.
  destruct (@C5_failed_population_is_not_retried sample_ratio
              (serve (document [bare_record])) (document [bare_record])
              (KeyError "description") "Foo" default_threshold fresh
              eq_refl eq_refl eq_refl) as (db & H1 & H2).
  exists db. split; [exact H1|apply H2].
Defined.

(** The same input, computed: the first call raises [KeyError] and leaves
    the cache set to [{}]; the second sends no request and raises
    [ValueError]. *)
Example bare_record_is_not_retried :
  get_by_name sample_ratio (serve (document [bare_record])) "Foo"
    default_threshold fresh
  = (Raise (KeyError "description"), mkCls (Some []) 1) /\
  get_by_name sample_ratio (serve (document [bare_record])) "Foo"
    default_threshold (mkCls (Some []) 1)
  = (Raise ValueError, mkCls (Some []) 1).
Proof. split; reflexivity. Qed.



(** Between its load and its lookup a caller lets others run: here the
    second caller loads an empty catalog, the first then loads [foo_bar],
    and the second finds its record in the catalog the first one loaded. *)
Example late_lookup_reads_the_other_load :
  run sample_ratio emptied [0; 1; 1; 0; 0; 1]%nat
    (calls_of [("Foo", default_threshold); ("Bar", default_threshold)]) fresh
  = ([Returned (Ok (sample_scroll 1 "Foo"));
      Returned (Ok (sample_scroll 2 "Bar"))],
     foo_bar_loaded_twice).
Proof. reflexivity. Qed.

Lemma C7_search_term_is_lowered :
  get_by_name sample_ratio (serve foo_fon) "FO" default_threshold foo_fon_loaded
  = (Raise (MultipleScrollsFound [JStr "Foo"; JStr "Fon"] "fo"), foo_fon_loaded)
  /\ "fo" <> "FO".
Proof. split; [reflexivity|discriminate]. Qed.

Lemma C7_foo_fon_witness :
  get_by_name sample_ratio (serve foo_fon) "FO" default_threshold foo_fon_loaded
  = (Raise (MultipleScrollsFound
              (map name [sample_scroll 1 "Foo"; sample_scroll 2 "Fon"])
              (lower "FO")),
     foo_fon_loaded).
Proof.
  destruct (@C7_ambiguous_carries_names_and_lowered_query sample_ratio
              (serve foo_fon)
              [("foo", sample_scroll 1 "Foo"); ("fon", sample_scroll 2 "Fon")]
              "FO" default_threshold foo_fon_loaded 100 "foo" "fon" [])
    as (scrolls & Hrecords & Hcall).
  - reflexivity.
  - reflexivity.
  - reflexivity.
  - reflexivity.
  - inversion Hrecords as [|? r1 ? rest1 H1 Hrest]; subst.
    inversion Hrest as [|? r2 ? rest2 H2 Hnil]; subst.
    inversion Hnil; subst.
    vm_compute in H1, H2. injection H1 as <-. injection H2 as <-.
    exact Hcall.
Defined.

Lemma C8_two_names_witness :
  MultipleScrollsFound_str [JStr "Foo"; JStr "Fon"] "fo"
  = Ok "Multiple scrolls match 'fo'z: Foo, Fon"
  /\ MultipleScrollsFound_str
       (map JStr ["a"; "b"; "c"; "d"; "e"; "f"]) "o"
     = Ok "Too many scrolls matches your query 'o'".
Proof.
  split.
  - exact (proj1 (C8_message_enumerates_up_to_five ["Foo"; "Fon"] "fo")).
  - exact (proj1 (C8_message_enumerates_up_to_five
                    ["a"; "b"; "c"; "d"; "e"; "f"] "o")).
Defined.



Lemma C10_duplicate_names_witness :
  exists db,
    populate (document [record 1 "Foo"; record 2 "FOO"; record 3 "Bar"]) fresh
    = (Ok tt, mkCls (Some db) 0) /\
    dict_get db "foo" = Some (sample_scroll 2 "FOO") /\
    dict_keys db = ["foo"; "bar"].
Proof.
  destruct (@C10_last_write_wins
              [("data", JArr [record 1 "Foo"; record 2 "FOO"; record 3 "Bar"])]
              [record 1 "Foo"; record 2 "FOO"; record 3 "Bar"]
              [("foo", sample_scroll 1 "Foo"); ("foo", sample_scroll 2 "FOO");
               ("bar", sample_scroll 3 "Bar")]
              fresh)
    as (db & Hpop & _ & _ & Hget).
  - reflexivity.
  - reflexivity.
  - exists db. split; [exact Hpop|]. split; [apply Hget|].
    vm_compute in Hpop. now injection Hpop as <-.
Defined.

(** * Further properties of the lookup and of the load *)

Section LookupFacts.
Variable partial_ratio : string -> string -> Z.
Variable server : nat -> response.

Local Abbreviation score := (score partial_ratio).
Local Abbreviation name_scores := (name_scores partial_ratio).
Local Abbreviation fuzzy_search := (fuzzy_search partial_ratio).
Local Abbreviation lookup := (lookup partial_ratio).
Local Abbreviation search := (search partial_ratio).
Local Abbreviation get_by_name := (get_by_name partial_ratio server).
Local Abbreviation catalog := (catalog server).

Lemma py_max_raises l e : py_max l = Raise e -> l = [] /\ e = ValueError.
Proof.
  destruct l; simpl; [|discriminate]. intros [= <-]. auto.
Qed.

(** X1: a call sends a request exactly when it finds [_scrolls_db] unset,
    whatever the query and whether it returns or raises: the request count
    grows by one in that case and stays as it is otherwise. *)
Theorem X1_request_sent_iff_cache_unset query threshold c :
  requests (snd (get_by_name query threshold c))
  = match _scrolls_db c with
    | None => S (requests c)
    | Some _ => requests c
    end.
Proof.
  destruct (_scrolls_db c) as [db|] eqn:Hdb.
  - now rewrite get_by_name_populated with (db := db) by exact Hdb.
  - rewrite get_by_name_uninitialized by exact Hdb. unfold pbind at 1.
    pose proof (load_scrolls_resume_requests (server (requests c))
                  (mkCls None (S (requests c)))) as Hr.
    destruct (load_scrolls_resume _ _) as [[[]|e] c']; cbn [snd requests] in *.
    + now rewrite search_state.
    + exact Hr.
Qed.

(** X2: when the response to the first call loads, that call leaves the
    cache set to the catalog of the response and answers from it, and every
    later call answers from the same catalog and leaves the class as it
    is: no second request, no reload. *)
Theorem X2_loaded_cache_is_reused query threshold c :
  _scrolls_db c = None ->
  fst (load_scrolls_resume (server (requests c)) (mkCls None 0)) = Ok tt ->
  get_by_name query threshold c
  = (lookup (catalog (requests c)) (lower query) threshold,
     mkCls (Some (catalog (requests c))) (S (requests c)))
  /\ forall query' threshold',
       get_by_name query' threshold'
         (mkCls (Some (catalog (requests c))) (S (requests c)))
       = (lookup (catalog (requests c)) (lower query') threshold',
          mkCls (Some (catalog (requests c))) (S (requests c))).
Proof.
  intros Hnone Hok. split.
  - rewrite get_by_name_uninitialized by exact Hnone. unfold pbind.
    rewrite load_scrolls_resume_ok by exact Hok. reflexivity.
  - intros q t. now apply get_by_name_populated.
Qed.

(** X3: on a set cache a call has three outcomes only.  It returns a
    record of the cache, stored under the lower-cased query or, failing
    that, under a name that reaches the threshold with a score no other
    such name exceeds; or it raises [ValueError], when the query is no key
    and no name reaches the threshold; or it raises [MultipleScrollsFound]
    with two names or more and the lower-cased query.  It raises neither
    [KeyError] nor [ScrollNotFound], and the class is left as it is. *)
Theorem X3_outcomes_on_a_set_cache db query threshold c :
  _scrolls_db c = Some db ->
  (exists key r,
      get_by_name query threshold c = (Ok r, c) /\
      dict_get db key = Some r /\
      (key = lower query \/
       (dict_mem (lower query) db = false /\
        ge_threshold (score (lower query) key) threshold = true /\
        forall n, In n (dict_keys db) ->
                  ge_threshold (score (lower query) n) threshold = true ->
                  score (lower query) n <= score (lower query) key)))
  \/ (get_by_name query threshold c = (Raise ValueError, c) /\
      dict_mem (lower query) db = false /\
      forall n, In n (dict_keys db) ->
                ge_threshold (score (lower query) n) threshold = false)
  \/ (exists names,
      get_by_name query threshold c
      = (Raise (MultipleScrollsFound names (lower query)), c) /\
      (2 <= List.length names)%nat /\
      dict_mem (lower query) db = false).
Proof.
  intros Hdb. rewrite get_by_name_populated with (db := db) by exact Hdb.
  unfold lookup. destruct (dict_mem (lower query) db) eqn:Hmem.
  - left. unfold dict_mem in Hmem. unfold getitem.
    destruct (dict_get db (lower query)) as [r|] eqn:Hr; [|discriminate].
    exists (lower query), r. auto.
  - unfold fuzzy_search.
    destruct (py_max (dict_values (name_scores db (lower query) threshold)))
      as [m|e] eqn:Hmax; cbn [bind].
    + apply py_max_spec in Hmax. destruct Hmax as (Hin & Hle).
      assert (Htop : forall a,
        In a (closest_items (name_scores db (lower query) threshold) m) ->
        In a (dict_keys db) /\
        ge_threshold (score (lower query) a) threshold = true /\
        m = score (lower query) a).
      { intros a Ha. now apply closest_items_In, name_scores_In in Ha. }
      destruct (closest_items _ m) as [|a [|b l]] eqn:Hc.
      * exfalso. unfold dict_values in Hin. apply in_map_iff in Hin.
        destruct Hin as ([n s] & Hs & Hin). simpl in Hs. subst s.
        apply closest_items_In in Hin. rewrite Hc in Hin. destruct Hin.
      * left. destruct (Htop a (or_introl eq_refl)) as (Hk & Hge & Hm).
        destruct (dict_keys_get db a Hk) as (r & Hr).
        exists a, r. unfold getitem. rewrite Hr. split; auto. split; auto.
        right. split; auto. split; auto.
        intros n Hn Hgn. rewrite <- Hm. apply Hle.
        apply (in_map snd (name_scores db (lower query) threshold)
                 (n, score (lower query) n)).
        apply name_scores_In. auto.
      * right; right.
        destruct (comprehension_getitem db (a :: b :: l)) as (rs & E & F).
        { intros x Hx. now apply Htop in Hx. }
        rewrite E. cbn [bind]. exists (map name rs). split; auto. split; auto.
        apply Forall2_length in F. rewrite length_map, <- F. simpl. lia.
    + right; left. apply py_max_raises in Hmax. destruct Hmax as (Hnil & ->).
      split; auto. split; auto. intros n Hn.
      destruct (ge_threshold (score (lower query) n) threshold) eqn:G; auto.
      exfalso.
      assert (Hx : In (n, score (lower query) n)
                      (name_scores db (lower query) threshold)).
      { apply name_scores_In. auto. }
      apply (in_map snd) in Hx. unfold dict_values in Hnil.
      rewrite Hnil in Hx. destruct Hx.
Qed.

(** X4: raising the threshold only removes candidates: a name kept with a
    score at the higher threshold is kept with the same score at any lower
    one. *)
Theorem X4_threshold_monotone db query threshold threshold' n s :
  (threshold <= threshold')%Q ->
  dict_get (name_scores db query threshold') n = Some s ->
  dict_get (name_scores db query threshold) n = Some s.
Proof.
  intros Hle H. apply name_scores_get in H. destruct H as (Hk & Hge & Hs).
  apply name_scores_get. split; auto. split; auto.
  apply ge_threshold_spec. apply ge_threshold_spec in Hge.
  now apply Qle_trans with threshold'.
Qed.

End LookupFacts.

(** ** What a load leaves behind *)

Lemma for_each_stops bad rest e good : forall entries db k,
  entries_of good = Ok entries ->
  entry_of bad = Raise e ->
  for_each (good ++ bad :: rest)%list load_one (mkCls (Some db) k)
  = (Raise e, mkCls (Some (assign_all entries db)) k).
Proof.
  unfold entries_of.
  induction good as [|x good IH]; intros entries db k Hgood Hbad; simpl in *.
  - injection Hgood as <-. unfold pbind. rewrite load_one_shape, Hbad.
    reflexivity.
  - destruct (entry_of x) as [[key r]|] eqn:E; simpl in Hgood; [|discriminate].
    destruct (comprehension entry_of good) as [es|] eqn:Es; simpl in Hgood;
      [|discriminate].
    injection Hgood as <-. unfold pbind at 1. rewrite load_one_shape, E.
    now rewrite (IH es).
Qed.

(** X5: population is not all or nothing.  When a record of the [data]
    array fails to construct, or has a [name] that is no string, the call
    raises that exception, the records before it stay in the cache and the
    ones after it are never read; the cache counts as set, so later calls
    answer from the partial catalog without a new request. *)
Theorem X5_bad_record_leaves_partial_cache
    partial_ratio server d good bad rest entries e query threshold c :
  _scrolls_db c = None ->
  server (requests c) = Document (JObj d) ->
  dict_get d "data" = Some (JArr (good ++ bad :: rest)%list) ->
  entries_of good = Ok entries ->
  entry_of bad = Raise e ->
  get_by_name partial_ratio server query threshold c
  = (Raise e, mkCls (Some (assign_all entries [])) (S (requests c)))
  /\ forall query' threshold',
       get_by_name partial_ratio server query' threshold'
         (mkCls (Some (assign_all entries [])) (S (requests c)))
       = (lookup partial_ratio (assign_all entries []) (lower query') threshold',
          mkCls (Some (assign_all entries [])) (S (requests c))).
Proof.
  intros Hnone Hdoc Hdata Hgood Hbad. split.
  - rewrite get_by_name_uninitialized by exact Hnone. rewrite Hdoc.
    unfold pbind at 1. unfold load_scrolls_resume, receive. unfold pbind at 1.
    unfold ret at 1. unfold populate. unfold pbind at 1. unfold set_db at 1.
    unfold pbind at 1. unfold lift at 1. unfold get_default. rewrite Hdata.
    unfold pbind at 1. unfold lift at 1. simpl py_iter. cbv beta iota.
    cbn [requests].
    now rewrite for_each_stops with (entries := entries) (e := e).
  - intros q t. now apply get_by_name_populated.
Qed.

Lemma dict_set_Forall (V : Type) (P : string * V -> Prop) (d : dict V) k v :
  P (k, v) -> Forall P d -> Forall P (dict_set d k v).
Proof.
  intros Hkv. induction d as [|[k' v'] d IH]; intros H; simpl.
  - constructor; auto.
  - inversion H as [|? ? Hh Ht]; subst.
    destruct (String.eqb k k') eqn:E.
    + apply String.eqb_eq in E. subst k'. constructor; auto.
    + constructor; auto.
Qed.

Lemma for_each_load_one_keeps items : forall db k,
  dict_wf db -> keyed_by_name db ->
  exists db',
    _scrolls_db (snd (for_each items load_one (mkCls (Some db) k))) = Some db' /\
    dict_wf db' /\ keyed_by_name db'.
Proof.
  induction items as [|x items IH]; intros db k Hwf Hkeyed; simpl; eauto.
  unfold pbind. rewrite load_one_shape.
  destruct (entry_of x) as [[key r]|] eqn:E; simpl; eauto.
  apply IH.
  - now apply dict_set_wf.
  - apply dict_set_Forall; auto. apply entry_of_spec in E.
    destruct E as (n & _ & Hn & Hk). simpl. eauto.
Qed.

(** X6: whatever document is loaded, and whether the load returns or
    raises after line 115, the cache it leaves has no repeated key and
    stores every record under the lower-cased form of its [name], which is
    a string. *)
Theorem X6_cache_keys_are_lowered_names data c :
  exists db,
    _scrolls_db (snd (populate data c)) = Some db /\
    dict_wf db /\ keyed_by_name db.
Proof.
  assert (Hempty : dict_wf (@nil (string * Scroll)) /\ keyed_by_name [])
    by (split; constructor).
  unfold populate. unfold pbind at 1. unfold set_db at 1.
  unfold pbind at 1. unfold lift at 1.
  destruct (get_default data "data" (JArr [])) as [v|e];
    [|exists []; simpl; tauto].
  unfold pbind at 1. unfold lift at 1.
  destruct (py_iter v) as [items|e]; [|exists []; simpl; tauto].
  apply for_each_load_one_keeps; tauto.
Qed.

Lemma names_of_cached_records (db : dict Scroll) keys : forall rs,
  keyed_by_name db ->
  Forall2 (fun n r => dict_get db n = Some r) keys rs ->
  exists strs, map name rs = map JStr strs.
Proof.
  induction keys as [|k keys IH]; intros rs Hdb H; inversion H; subst.
  - exists []. reflexivity.
  - destruct (IH _ Hdb H4) as (strs & E).
    apply dict_get_In in H2. unfold keyed_by_name in Hdb.
    rewrite Forall_forall in Hdb. destruct (Hdb _ H2) as (n & Hn & _).
    simpl in Hn. exists (n :: strs). simpl. now rewrite Hn, E.
Qed.

(** X7: an ambiguity raised on a cache whose records are keyed by their
    names carries strings only, and two of them or more, so [__str__]
    never fails on it: the message is the one of [MultipleScrollsFound]
    for those strings. *)
Theorem X7_ambiguity_message_is_defined
    partial_ratio server db query threshold c names term c' :
  _scrolls_db c = Some db ->
  keyed_by_name db ->
  get_by_name partial_ratio server query threshold c
  = (Raise (MultipleScrollsFound names term), c') ->
  exists strs,
    names = map JStr strs /\
    (2 <= List.length strs)%nat /\
    MultipleScrollsFound_str names term
    = Ok (if (5 <? List.length strs)%nat
          then "Too many scrolls matches your query '" ++ term ++ "'"
          else "Multiple scrolls match '" ++ term ++ "'z: " ++ join ", " strs).
Proof.
  intros Hdb Hkeyed. rewrite get_by_name_populated with (db := db) by exact Hdb.
  unfold lookup. destruct (dict_mem (lower query) db).
  { unfold getitem. destruct (dict_get db (lower query)); discriminate. }
  unfold fuzzy_search.
  destruct (py_max _) as [m|e] eqn:Hmax; cbn [bind];
    [|apply py_max_raises in Hmax; destruct Hmax as (_ & ->); discriminate].
  destruct (closest_items _ m) as [|a [|b l]] eqn:Hc.
  - discriminate.
  - unfold getitem. destruct (dict_get db a); discriminate.
  - destruct (comprehension_getitem db (a :: b :: l)) as (rs & E & F).
    { intros x Hx. rewrite <- Hc in Hx.
      apply closest_items_In, name_scores_In in Hx. tauto. }
    rewrite E. cbn [bind]. unfold MultipleScrollsFound_init.
    intros [= <- <- _].
    destruct (names_of_cached_records Hkeyed F) as (strs & Hs).
    exists strs. split; auto.
    assert (Hlen : List.length strs = List.length (a :: b :: l)).
    { apply Forall2_length in F. rewrite F.
      rewrite <- (length_map name rs), Hs. now rewrite length_map. }
    split; [rewrite Hlen; simpl; lia|].
    rewrite Hs. unfold MultipleScrollsFound_str. rewrite length_map.
    destruct (5 <? List.length strs)%nat; auto.
    now rewrite join_values_strings.
Qed.

(** X8: a response that is JSON but not an object makes the first call
    raise [AttributeError] after the cache was set to [{}]; from then on
    every call, whatever its query and threshold, raises [ValueError] and
    sends no request. *)
Theorem X8_non_object_document_empties_the_cache
    partial_ratio server data query threshold c :
  _scrolls_db c = None ->
  server (requests c) = Document data ->
  (forall d, data <> JObj d) ->
  get_by_name partial_ratio server query threshold c
  = (Raise AttributeError, mkCls (Some []) (S (requests c)))
  /\ forall query' threshold',
       get_by_name partial_ratio server query' threshold'
         (mkCls (Some []) (S (requests c)))
       = (Raise ValueError, mkCls (Some []) (S (requests c))).
Proof.
  intros Hnone Hdoc Hshape. split.
  - rewrite get_by_name_uninitialized by exact Hnone. rewrite Hdoc.
    destruct data as [| | | | |d]; try reflexivity.
    now destruct (Hshape d).
  - intros q t. now rewrite get_by_name_populated with (db := []).
Qed.

(** X9: a response that is an object without a [data] member loads as
    the empty catalog: nothing is raised by the load, the cache is set to
    [{}], and the call that loaded it, whatever its query and threshold,
    raises [ValueError]. *)
Theorem X9_missing_data_member_is_empty_catalog
    partial_ratio server d query threshold c :
  _scrolls_db c = None ->
  server (requests c) = Document (JObj d) ->
  dict_get d "data" = None ->
  populate (JObj d) c = (Ok tt, mkCls (Some []) (requests c)) /\
  get_by_name partial_ratio server query threshold c
  = (Raise ValueError, mkCls (Some []) (S (requests c))).
Proof.
  intros Hnone Hdoc H.
  assert (Hpop : forall c0, populate (JObj d) c0
                            = (Ok tt, mkCls (Some []) (requests c0))).
  { intros c0. unfold populate. unfold pbind at 1. unfold set_db at 1.
    unfold pbind at 1. unfold lift at 1. unfold get_default. now rewrite H. }
  split; [apply Hpop|].
  rewrite get_by_name_uninitialized by exact Hnone. rewrite Hdoc.
  unfold pbind at 1. unfold load_scrolls_resume, receive. unfold pbind at 1.
  unfold ret at 1. rewrite Hpop. reflexivity.
Qed.

Section TieOrder.
Variable partial_ratio : string -> string -> Z.

Local Abbreviation score := (score partial_ratio).
Local Abbreviation name_scores := (name_scores partial_ratio).

Lemma scan_fresh query threshold names : forall scores,
  NoDup names ->
  (forall n, In n names -> ~ In n (dict_keys scores)) ->
  fold_left (keep_if_close partial_ratio query threshold) names scores
  = (scores
     ++ map (fun n => (n, score query n))
          (filter (fun n => ge_threshold (score query n) threshold) names))%list.
Proof.
  induction names as [|x names IH]; intros scores Hnd Hfresh; simpl.
  - now rewrite app_nil_r.
  - inversion Hnd as [|? ? Hx Hnd']; subst. unfold keep_if_close at 2.
    destruct (ge_threshold (score query x) threshold) eqn:G.
    + rewrite dict_set_fresh by (apply Hfresh; now left).
      rewrite IH; auto.
      * simpl. now rewrite <- app_assoc.
      * intros n Hn. unfold dict_keys. rewrite map_app, in_app_iff. simpl.
        intros [H|[H|[]]].
        -- apply (Hfresh n); [now right|exact H].
        -- subst. tauto.
    + apply IH; auto. intros n Hn. apply Hfresh. now right.
Qed.

(** X10: on a cache without repeated keys the names collected at the
    maximum come in the order of the keys of the cache, each once: they
    are the keys that reach the threshold with the given maximal score,
    filtered in place. *)
Theorem X10_tied_names_keep_cache_order (db : dict Scroll) query threshold max_score :
  dict_wf db ->
  closest_items (name_scores db query threshold) max_score
  = filter (fun n => ge_threshold (score query n) threshold
                     && (score query n =? max_score))
      (dict_keys db).
Proof.
  intros Hwf. unfold name_scores. rewrite scan_fresh; auto.
  unfold closest_items, dict_items. simpl.
  induction (dict_keys db) as [|n keys IH]; simpl; auto.
  destruct (ge_threshold (score query n) threshold); simpl; auto.
  destruct (score query n =? max_score); simpl; now rewrite IH.
Qed.

End TieOrder.

(** * The display properties *)

(** ** Text operations *)

Lemma occurs_append c a b : occurs c (a ++ b) = occurs c a || occurs c b.
Proof.
  induction a as [|x a IH]; simpl; auto. rewrite IH. now rewrite orb_assoc.
Qed.

Lemma prefix_length a : forall b,
  prefix a b = true -> (String.length a <= String.length b)%nat.
Proof.
  induction a as [|x a IH]; intros b H; [simpl; lia|].
  destruct b as [|y b]; simpl in H; [discriminate|].
  destruct (ascii_dec x y); [|discriminate]. apply IH in H. simpl. lia.
Qed.

Lemma prefix_empty s : prefix "" s = true.
Proof. now destruct s. Qed.

Lemma length_append a b :
  String.length (a ++ b) = (String.length a + String.length b)%nat.
Proof. induction a as [|x a IH]; simpl; auto. Qed.

(** A replacement brings in no character that is in neither the text nor
    the replacement. *)
Lemma replace_from_chars old new c s : forall k,
  occurs c (replace_from old new k s) = true ->
  occurs c s = true \/ occurs c new = true.
Proof.
  induction s as [|x s IH]; intros k H; [discriminate|].
  cbn [replace_from] in H. cbn [occurs].
  destruct k as [|k].
  - destruct (prefix old (String x s)).
    + rewrite occurs_append in H. apply orb_true_iff in H.
      destruct H as [H|H]; auto. apply IH in H.
      destruct H as [H|H]; auto. left. rewrite H. apply orb_true_r.
    + cbn [occurs] in H. apply orb_true_iff in H. destruct H as [H|H].
      * left. now rewrite H.
      * apply IH in H. destruct H as [H|H]; auto. left. rewrite H.
        apply orb_true_r.
  - apply IH in H. destruct H as [H|H]; auto. left. rewrite H.
    apply orb_true_r.
Qed.

Lemma replace_chars old new c s :
  occurs c s = false -> occurs c new = false ->
  occurs c (replace old new s) = false.
Proof.
  intros Hs Hn. destruct old as [|o old]; unfold replace.
  - rewrite occurs_append, Hn. cbn [orb].
    induction s as [|x s IH]; [reflexivity|].
    cbn [occurs after_each] in *.
    apply orb_false_iff in Hs. destruct Hs as (Hx & Hs).
    rewrite Hx, occurs_append, Hn. cbn [orb]. auto.
  - destruct (occurs c (replace_from (String o old) new 0 s)) eqn:E; auto.
    apply replace_from_chars in E. destruct E; congruence.
Qed.

(** Replacing a character by nothing removes it. *)
Lemma replace_deletes c s : occurs c (replace (String c "") "" s) = false.
Proof.
  unfold replace. generalize 0%nat.
  induction s as [|x s IH]; intros k; [reflexivity|].
  cbn [replace_from]. destruct k as [|k]; auto.
  cbn [prefix String.length Nat.sub].
  destruct (ascii_dec c x) as [->|Hne].
  - rewrite prefix_empty. cbn [append]. apply IH.
  - cbn [occurs]. rewrite IH. apply Ascii.eqb_neq in Hne. now rewrite Hne.
Qed.

(** A replacement no longer than what it replaces does not lengthen the
    text. *)
Lemma replace_from_length old new s : forall k,
  (String.length new <= String.length old)%nat ->
  (String.length (replace_from old new k s) + Nat.min k (String.length s)
   <= String.length s)%nat.
Proof.
  induction s as [|x s IH]; intros k Hlen; cbn [replace_from String.length].
  - rewrite Nat.min_0_r. simpl. lia.
  - destruct k as [|k].
    + destruct (prefix old (String x s)) eqn:P.
      * apply prefix_length in P. cbn [String.length] in P.
        rewrite length_append.
        specialize (IH (String.length old - 1)%nat Hlen). lia.
      * cbn [String.length]. specialize (IH 0%nat Hlen). lia.
    + specialize (IH k Hlen). lia.
Qed.

Lemma replace_length old new s :
  old <> "" ->
  (String.length new <= String.length old)%nat ->
  (String.length (replace old new s) <= String.length s)%nat.
Proof.
  intros Hold Hlen. destruct old as [|o old]; [congruence|]. unfold replace.
  pose proof (replace_from_length (String o old) new s 0 Hlen). lia.
Qed.

(** ** [description] *)

(** X11: the description of a scroll whose [description] field is a string
    is defined, contains none of the characters [<], [>], [[] and []], and
    is no longer than the field. *)
Theorem X11_description_has_no_markup scroll s :
  _description scroll = JStr s ->
  exists out,
    description scroll = Ok out /\
    occurs "<" out = false /\ occurs ">" out = false /\
    occurs "[" out = false /\ occurs "]" out = false /\
    (String.length out <= String.length s)%nat.
Proof.
  intros H. unfold description, str_method. rewrite H. cbn [as_str].
  eexists. split; [reflexivity|]. repeat split.
  - do 4 (apply replace_chars; [|reflexivity]). apply replace_deletes.
  - do 3 (apply replace_chars; [|reflexivity]). apply replace_deletes.
  - apply replace_chars; [|reflexivity]. apply replace_deletes.
  - apply replace_deletes.
  - repeat (etransitivity; [apply replace_length; [discriminate|simpl; lia]|]).
    apply Nat.le_refl.
Qed.

(** ** [flavor] *)

Lemma prefix_escape x s :
  prefix "\n" (String x s) = Ascii.eqb x "\" && starts_with "n" s.
Proof.
  destruct s as [|y s]; cbn [prefix starts_with];
    destruct (ascii_dec "\" x) as [<-|Hne];
    try (apply not_eq_sym in Hne; apply Ascii.eqb_neq in Hne; now rewrite Hne);
    [reflexivity|].
  destruct (ascii_dec "n" y) as [<-|Hn].
  - now rewrite prefix_empty.
  - apply not_eq_sym in Hn. apply Ascii.eqb_neq in Hn. now rewrite Hn.
Qed.

Lemma contains_escape_cons x s :
  contains "\n" (String x s)
  = (Ascii.eqb x "\" && starts_with "n" s) || contains "\n" s.
Proof. cbn [contains]. now rewrite prefix_escape. Qed.

Lemma lstrip_head chars c s :
  occurs c chars = true -> starts_with c (lstrip chars s) = false.
Proof.
  intros Hc. induction s as [|x s IH]; [reflexivity|]. cbn [lstrip].
  destruct (occurs x chars) eqn:Hx; auto. cbn [starts_with].
  destruct (Ascii.eqb x c) eqn:E; auto.
  apply Ascii.eqb_eq in E. congruence.
Qed.

(** After the escapes are replaced none is left, and the text begins with
    an [n] only if it did before. *)
Lemma unescape_from s : forall k,
  contains "\n" (replace_from "\n" newline k s) = false /\
  (starts_with "n" (replace_from "\n" newline 0 s) = true ->
   starts_with "n" s = true).
Proof.
  induction s as [|x s IH]; intros k; [split; [reflexivity|discriminate]|].
  split.
  - destruct k as [|k]; cbn [replace_from]; [|apply IH].
    rewrite prefix_escape.
    destruct (Ascii.eqb x "\" && starts_with "n" s) eqn:M.
    + cbn [String.length Nat.sub newline append].
      rewrite contains_escape_cons. cbn [Ascii.eqb Bool.eqb andb orb].
      apply IH.
    + rewrite contains_escape_cons. destruct (IH 0%nat) as (Hc & Hh).
      rewrite Hc, orb_false_r.
      destruct (Ascii.eqb x "\"); [|reflexivity]. cbn [andb] in *.
      destruct (starts_with "n" (replace_from "\n" newline 0 s)); auto.
      rewrite Hh in M by reflexivity. discriminate.
  - cbn [replace_from]. rewrite prefix_escape.
    destruct (Ascii.eqb x "\" && starts_with "n" s) eqn:M.
    + cbn [String.length Nat.sub newline append starts_with]. discriminate.
    + cbn [starts_with]. auto.
Qed.

(** X12: the flavor of a scroll whose [flavor] field is a string is
    defined; no two-character escape (a backslash followed by [n]) is left
    in it, and it begins neither with a backslash nor with the letter [n]:
    [lstrip] takes its argument as a set of characters, so leading letters
    [n] of the text are dropped too. *)
Theorem X12_flavor_has_no_escape_and_no_leading_n scroll s :
  _flavor scroll = JStr s ->
  exists out,
    flavor scroll = Ok out /\
    contains "\n" out = false /\
    starts_with "\" out = false /\
    starts_with "n" out = false.
Proof.
  intros H. unfold flavor, str_method. rewrite H. cbn [as_str].
  eexists. split; [reflexivity|]. unfold replace. repeat split.
  - apply unescape_from.
  - destruct (starts_with "\" (replace_from "\n" newline 0 (lstrip "\n" s)))
      eqn:E; auto.
    destruct (lstrip "\n" s) as [|x t] eqn:L; [discriminate|].
    assert (Hx : starts_with "\" (lstrip "\n" s) = false)
      by (apply lstrip_head; reflexivity).
    rewrite L in Hx. cbn [starts_with] in Hx.
    cbn [replace_from] in E. rewrite prefix_escape, Hx in E.
    cbn [andb starts_with] in E. congruence.
  - destruct (starts_with "n" (replace_from "\n" newline 0 (lstrip "\n" s)))
      eqn:E; auto.
    apply (proj2 (unescape_from (lstrip "\n" s) 0)) in E.
    rewrite lstrip_head in E by reflexivity. discriminate.
Qed.

(** ** [types] *)

Lemma spaced_from s : forall k,
  commas_spaced (replace_from "," ", " k s) = true.
Proof.
  induction s as [|x s IH]; intros k; [reflexivity|].
  cbn [replace_from]. destruct k as [|k]; [|apply IH].
  cbn [prefix]. destruct (ascii_dec "," x) as [<-|Hne].
  - rewrite prefix_empty. cbn [String.length Nat.sub append commas_spaced].
    cbn [starts_with Ascii.eqb Bool.eqb andb]. apply IH.
  - cbn [commas_spaced]. apply not_eq_sym in Hne.
    apply Ascii.eqb_neq in Hne. rewrite Hne. cbn [andb]. apply IH.
Qed.

Lemma replace_absent c new s :
  occurs c s = false -> replace_from (String c "") new 0 s = s.
Proof.
  induction s as [|x s IH]; intros H; [reflexivity|].
  cbn [occurs] in H. apply orb_false_iff in H. destruct H as (Hx & Hs).
  cbn [replace_from prefix]. destruct (ascii_dec c x) as [->|Hne].
  - now rewrite Ascii.eqb_refl in Hx.
  - now rewrite IH.
Qed.

(** X13: the types of a scroll whose [types] field is a string are
    defined and every comma in them is followed by a space; a field
    without a comma is returned as it is. *)
Theorem X13_types_commas_are_spaced scroll s :
  _types scroll = JStr s ->
  exists out,
    types scroll = Ok out /\
    commas_spaced out = true /\
    (occurs "," s = false -> out = s).
Proof.
  intros H. unfold types, str_method. rewrite H. cbn [as_str].
  eexists. split; [reflexivity|]. unfold replace. split.
  - apply spaced_from.
  - apply replace_absent.
Qed.

(** ** [kind] *)

Ltac each_ascii c :=
  destruct c as [[] [] [] [] [] [] [] []]; vm_compute; reflexivity.

Lemma lower_ascii_not_upper c : is_upper (lower_ascii c) = false.
Proof. each_ascii c. Qed.

Lemma lower_ascii_idempotent c : lower_ascii (lower_ascii c) = lower_ascii c.
Proof. each_ascii c. Qed.

Ltac each_ascii_if c :=
  destruct c as [[] [] [] [] [] [] [] []]; vm_compute;
  let H := fresh in intros H; first [reflexivity | discriminate H].

Lemma title_char_check c :
  is_ascii c = true ->
  match title_char c with
  | String u EmptyString =>
      negb (is_lower u) && Ascii.eqb (lower_ascii u) (lower_ascii c)
  | _ => false
  end = true.
Proof. each_ascii_if c. Qed.

(** On an ASCII character the title case is one character, no lower-case
    letter, and the same letter up to case. *)
Lemma title_char_single c :
  is_ascii c = true ->
  exists u, title_char c = String u "" /\
            is_lower u = false /\ lower_ascii u = lower_ascii c.
Proof.
  intros H. apply title_char_check in H.
  destruct (title_char c) as [|u [|v t]]; try discriminate H.
  apply andb_true_iff in H. destruct H as (Hl & He).
  exists u. split; [reflexivity|]. split.
  - now apply negb_true_iff in Hl.
  - now apply Ascii.eqb_eq in He.
Qed.

Lemma title_char_of_lower c :
  is_ascii c = true -> title_char (lower_ascii c) = title_char c.
Proof. each_ascii_if c. Qed.

Lemma lower_idempotent s : lower (lower s) = lower s.
Proof.
  induction s as [|c s IH]; simpl; auto.
  now rewrite lower_ascii_idempotent, IH.
Qed.

Lemma lower_has_no_upper s :
  all_chars (fun x => negb (is_upper x)) (lower s) = true.
Proof.
  induction s as [|c s IH]; simpl; auto.
  now rewrite lower_ascii_not_upper, IH.
Qed.

(** X14: the kind of a scroll whose [kind] field is a string of ASCII
    characters is defined and is the field up to the case of its letters;
    its first character is no lower-case letter, the others are no
    upper-case letters; and two such fields that differ only in case have
    the same kind. *)
Theorem X14_kind_is_capitalized scroll s :
  _kind scroll = JStr s ->
  all_chars is_ascii s = true ->
  exists out,
    kind scroll = Ok out /\
    lower out = lower s /\
    match out with
    | EmptyString => s = EmptyString
    | String c others =>
        is_lower c = false /\
        all_chars (fun x => negb (is_upper x)) others = true
    end /\
    (forall scroll' s', _kind scroll' = JStr s' ->
                        all_chars is_ascii s' = true ->
                        lower s' = lower s ->
                        kind scroll' = Ok out).
Proof.
  intros H Hascii. unfold kind, str_method. rewrite H. cbn [as_str].
  eexists. split; [reflexivity|].
  destruct s as [|c s].
  - repeat split; auto. intros scroll' s' H' _ Hcase. rewrite H'. cbn [as_str].
    destruct s'; [reflexivity|discriminate].
  - cbn [all_chars] in Hascii. apply andb_true_iff in Hascii.
    destruct Hascii as (Hc & Hs).
    destruct (title_char_single c Hc) as (u & Hu & Hlow & Hsame).
    cbn [capitalize]. rewrite Hu. cbn [append]. split; [|split].
    + cbn [lower]. now rewrite Hsame, lower_idempotent.
    + split; [exact Hlow|apply lower_has_no_upper].
    + intros scroll' s' H' Hascii' Hcase. rewrite H'. cbn [as_str]. f_equal.
      destruct s' as [|c' s']; [discriminate|].
      cbn [all_chars] in Hascii'. apply andb_true_iff in Hascii'.
      destruct Hascii' as (Hc' & _).
      cbn [lower] in Hcase. injection Hcase as Hcc Hss.
      cbn [capitalize].
      rewrite <- (title_char_of_lower c' Hc'), Hcc, (title_char_of_lower c Hc).
      now rewrite Hu, Hss.
Qed.

(** ** [passive_rules] *)

Lemma occurs_join c sep names :
  occurs c sep = false ->
  Forall (fun x => occurs c x = false) names ->
  occurs c (join sep names) = false.
Proof.
  intros Hsep. induction names as [|x names IH]; intros H; [reflexivity|].
  inversion H as [|? ? Hx Hrest]; subst.
  destruct names as [|y names]; [exact Hx|].
  change (join sep (x :: y :: names)) with (x ++ sep ++ join sep (y :: names)).
  rewrite !occurs_append, Hx, Hsep. simpl. now apply IH.
Qed.

Lemma comprehension_Forall (A B : Type) (f : A -> result B) (P : B -> Prop) items :
  (forall x y, f x = Ok y -> P y) ->
  forall ys, comprehension f items = Ok ys -> Forall P ys.
Proof.
  intros Hf. induction items as [|x items IH]; intros ys H; simpl in H.
  - injection H as <-. constructor.
  - destruct (f x) as [y|] eqn:E; simpl in H; [|discriminate].
    destruct (comprehension f items) as [zs|]; simpl in H; [|discriminate].
    injection H as <-. constructor; eauto.
Qed.

Lemma rule_name_clean rule out :
  rule_name rule = Ok out ->
  occurs "[" out = false /\ occurs "]" out = false.
Proof.
  unfold rule_name, str_method.
  destruct (subscript rule "name") as [v|]; cbn [bind]; [|discriminate].
  destruct (as_str v) as [s|]; [|discriminate]. intros [= <-]. split.
  - apply replace_chars with (old := "]") (new := "") (s := replace "[" "" s);
      [|reflexivity].
    apply (replace_deletes "[" s).
  - apply (replace_deletes "]" (replace "[" "" s)).
Qed.

(** X15: the passive rules of a scroll built from a record without a
    [passiverules] member are the empty string; and whenever
    [passive_rules] returns, its text contains neither [[] nor []]. *)
Theorem X15_passive_rules_default_and_brackets d scroll :
  Scroll_init (JObj d) = Ok scroll ->
  (dict_get d "passiverules" = None -> passive_rules scroll = Ok "") /\
  (forall out, passive_rules scroll = Ok out ->
               occurs "[" out = false /\ occurs "]" out = false).
Proof.
  intros Hinit. split.
  - intros Hnone. unfold Scroll_init, subscript, get_default, getitem in Hinit.
    rewrite Hnone in Hinit.
    repeat match type of Hinit with
           | context [match dict_get d ?k with _ => _ end] =>
               destruct (dict_get d k); cbn [bind] in Hinit;
               [|discriminate Hinit]
           end.
    cbn [bind] in Hinit. injection Hinit as <-. reflexivity.
  - intros out. unfold passive_rules.
    destruct (py_iter (_passive_rules scroll)) as [rules|]; simpl;
      [|discriminate].
    destruct (comprehension rule_name rules) as [names|] eqn:E; simpl;
      [|discriminate].
    intros [= <-]. split; apply occurs_join; try reflexivity.
    + apply (comprehension_Forall rule_name
               (fun y => occurs "[" y = false) rules); auto.
      intros x y Hxy. now apply rule_name_clean in Hxy.
    + apply (comprehension_Forall rule_name
               (fun y => occurs "]" y = false) rules); auto.
      intros x y Hxy. now apply rule_name_clean in Hxy.
Qed.

(** ** [image_url] *)

Lemma all_chars_append p a b :
  all_chars p (a ++ b) = all_chars p a && all_chars p b.
Proof.
  induction a as [|x a IH]; simpl; auto. rewrite IH. now rewrite andb_assoc.
Qed.

Lemma all_chars_occurs p c s :
  all_chars p s = true -> p c = false -> occurs c s = false.
Proof.
  intros Hs Hc. induction s as [|x s IH]; simpl in *; auto.
  apply andb_true_iff in Hs. destruct Hs as (Hx & Hs). rewrite IH by exact Hs.
  destruct (Ascii.eqb c x) eqn:E; auto.
  apply Ascii.eqb_eq in E. congruence.
Qed.

Lemma quote_char_safe c : all_chars url_safe (quote_char c) = true.
Proof. each_ascii c. Qed.

Lemma quote_plus_safe s : all_chars url_safe (quote_plus s) = true.
Proof.
  induction s as [|c s IH]; [reflexivity|]. cbn [quote_plus].
  now rewrite all_chars_append, quote_char_safe, IH.
Qed.

Lemma quote_plus_unreserved s :
  all_chars unreserved s = true -> quote_plus s = s.
Proof.
  induction s as [|c s IH]; intros H; [reflexivity|].
  cbn [all_chars] in H. apply andb_true_iff in H. destruct H as (Hc & Hs).
  cbn [quote_plus]. unfold quote_char. rewrite Hc, IH by exact Hs. reflexivity.
Qed.

(** X16: the image URL of a scroll whose name is a string is the fixed
    address with the quoted name between [name=] and [&size=small].  The
    quoted name is made of letters, digits and the characters [_.-~+%]
    only, so it holds no space and no [&], and a name made of letters,
    digits and [_.-~] is inserted unchanged. *)
Theorem X16_image_url_quotes_the_name scroll n :
  name scroll = JStr n ->
  exists quoted,
    image_url scroll
    = Ok ("https://a.scrollsguide.com/image/screen?name=" ++ quoted
          ++ "&size=small") /\
    all_chars url_safe quoted = true /\
    occurs " " quoted = false /\ occurs "&" quoted = false /\
    (all_chars unreserved n = true -> quoted = n).
Proof.
  intros H. unfold image_url. rewrite H. cbn [as_str].
  exists (quote_plus n). split; [reflexivity|].
  pose proof (quote_plus_safe n) as Hsafe. repeat split; auto.
  - now apply all_chars_occurs with (p := url_safe).
  - now apply all_chars_occurs with (p := url_safe).
  - apply quote_plus_unreserved.
Qed.

(** ** [cost], [attack], [countdown], [rarity] *)

(** X17: the cost shows one resource, the first whose cost is not zero (or
    otherwise false) in the order growth, order, decay, energy: growth
    whenever it is true, order when growth is false, decay when growth and
    order are false, energy when the three are false, each with its own
    tag and its own value.  The value shown is never a false one, and the
    result is [None] exactly when the four costs are all false. *)
Theorem X17_cost_shows_first_nonzero_resource
    (format_value : json -> string) scroll :
  (truthy (_growth_cost scroll) = true ->
   cost format_value scroll
   = Some ("<:Growth:320829951534170113> "
           ++ format_value (_growth_cost scroll))) /\
  (truthy (_growth_cost scroll) = false ->
   truthy (_order_cost scroll) = true ->
   cost format_value scroll
   = Some ("<:Order:320830133801975808> "
           ++ format_value (_order_cost scroll))) /\
  (truthy (_growth_cost scroll) = false ->
   truthy (_order_cost scroll) = false ->
   truthy (_decay_cost scroll) = true ->
   cost format_value scroll
   = Some ("<:Decay:320829724085583874> "
           ++ format_value (_decay_cost scroll))) /\
  (truthy (_growth_cost scroll) = false ->
   truthy (_order_cost scroll) = false ->
   truthy (_decay_cost scroll) = false ->
   truthy (_energy_cost scroll) = true ->
   cost format_value scroll
   = Some ("<:Energy:320830049039417344> "
           ++ format_value (_energy_cost scroll))) /\
  (cost format_value scroll = None
   <-> truthy (_growth_cost scroll) = false /\
       truthy (_order_cost scroll) = false /\
       truthy (_decay_cost scroll) = false /\
       truthy (_energy_cost scroll) = false) /\
  (forall text, cost format_value scroll = Some text ->
     exists tag v,
       In (tag, v)
          [("<:Growth:320829951534170113>", _growth_cost scroll);
           ("<:Order:320830133801975808>", _order_cost scroll);
           ("<:Decay:320829724085583874>", _decay_cost scroll);
           ("<:Energy:320830049039417344>", _energy_cost scroll)] /\
       truthy v = true /\
       text = tag ++ " " ++ format_value v).
Proof.
  unfold cost.
  split; [intros G; now rewrite G|].
  split; [intros G O; now rewrite G, O|].
  split; [intros G O D; now rewrite G, O, D|].
  split; [intros G O D E; now rewrite G, O, D, E|].
  destruct (truthy (_growth_cost scroll)) eqn:G;
    [|destruct (truthy (_order_cost scroll)) eqn:O;
      [|destruct (truthy (_decay_cost scroll)) eqn:D;
        [|destruct (truthy (_energy_cost scroll)) eqn:E]]];
    (split; [split; [discriminate || tauto|intuition discriminate]|]);
    intros text [= <-].
  - exists "<:Growth:320829951534170113>", (_growth_cost scroll).
    simpl. auto.
  - exists "<:Order:320830133801975808>", (_order_cost scroll).
    simpl. auto.
  - exists "<:Decay:320829724085583874>", (_decay_cost scroll).
    simpl. auto 6.
  - exists "<:Energy:320830049039417344>", (_energy_cost scroll).
    simpl. auto 7.
Qed.

(** X18: [attack] shows a dash for a false value (a zero, null, an empty
    string or list) and returns any other value as it is, so it never
    returns a false value.  [countdown] shows a dash for a number below one
    and for [False], returns a number from one up and [True] as they are,
    and so never returns a number below one; a countdown that is neither a
    number nor a boolean raises [TypeError]. *)
Theorem X18_attack_and_countdown_dash scroll :
  (truthy (_attack scroll) = false -> attack scroll = JStr "-") /\
  (truthy (_attack scroll) = true -> attack scroll = _attack scroll) /\
  truthy (attack scroll) = true /\
  (forall q, _countdown scroll = JNum q -> (q < 1)%Q ->
             countdown scroll = Ok (JStr "-")) /\
  (forall q, _countdown scroll = JNum q -> (1 <= q)%Q ->
             countdown scroll = Ok (JNum q)) /\
  (forall b, _countdown scroll = JBool b ->
             countdown scroll = Ok (if b then JBool true else JStr "-")) /\
  (forall q, countdown scroll = Ok (JNum q) ->
             (1 <= q)%Q /\ _countdown scroll = JNum q) /\
  ((forall q, _countdown scroll <> JNum q) ->
   (forall b, _countdown scroll <> JBool b) ->
   countdown scroll = Raise TypeError).
Proof.
  unfold attack, countdown, lt_one.
  split; [|split; [|split; [|split; [|split; [|split; [|split]]]]]].
  - intros H. now rewrite H.
  - intros H. now rewrite H.
  - destruct (truthy (_attack scroll)) eqn:E; simpl; auto.
  - intros q H Hlt. rewrite H. cbn [bind].
    destruct (Qle_bool 1 q) eqn:E; auto.
    apply Qle_bool_iff in E. exfalso. now apply (Qlt_not_le q 1).
  - intros q H Hle. rewrite H. cbn [bind].
    apply Qle_bool_iff in Hle. now rewrite Hle.
  - intros b H. rewrite H. cbn [bind]. now destruct b.
  - intros q. destruct (_countdown scroll) as [|b|q'|s|l|d]; cbn [bind];
      try discriminate.
    + destruct b; discriminate.
    + destruct (Qle_bool 1 q') eqn:E; cbn [negb]; [|discriminate].
      intros [= <-]. split; auto. now apply Qle_bool_iff.
  - intros Hq Hb. destruct (_countdown scroll) as [|b|q|s|l|d]; auto.
    + now destruct (Hb b).
    + now destruct (Hq q).
Qed.

Lemma rarity_label_values q label :
  rarity_label q = Some label ->
  (q == 0 /\ label = "Common") \/ (q == 1 /\ label = "Uncommon")
  \/ (q == 2 /\ label = "Rare").
Proof.
  unfold rarity_label.
  destruct (Qeq_bool q 0) eqn:E0.
  { intros [= <-]. left. split; auto. now apply Qeq_bool_eq. }
  destruct (Qeq_bool q 1) eqn:E1.
  { intros [= <-]. right; left. split; auto. now apply Qeq_bool_eq. }
  destruct (Qeq_bool q 2) eqn:E2; [|discriminate].
  intros [= <-]. right; right. split; auto. now apply Qeq_bool_eq.
Qed.

(** X19: [rarity] returns a label only for a number equal to 0, 1 or 2 (or
    a boolean, which is 0 or 1), and the label is then Common, Uncommon or
    Rare in that order; any other number, and any string, also the string
    of a digit, ends in [KeyError] with that key. *)
Theorem X19_rarity_is_defined_on_three_values scroll :
  (forall label, rarity scroll = Rarity label ->
     (exists q, _rarity scroll = JNum q /\
        ((q == 0 /\ label = "Common") \/ (q == 1 /\ label = "Uncommon")
         \/ (q == 2 /\ label = "Rare")))
     \/ (_rarity scroll = JBool false /\ label = "Common")
     \/ (_rarity scroll = JBool true /\ label = "Uncommon")) /\
  (forall q, _rarity scroll = JNum q ->
     ~ q == 0 -> ~ q == 1 -> ~ q == 2 ->
     rarity scroll = RarityKeyError (JNum q)) /\
  (forall s, _rarity scroll = JStr s -> rarity scroll = RarityKeyError (JStr s)).
Proof.
  unfold rarity. split; [|split].
  - intros label. destruct (_rarity scroll) as [|b|q|s|l|d]; try discriminate.
    + intros [= <-]. destruct b; auto.
    + destruct (rarity_label q) as [l|] eqn:E; [|discriminate].
      intros [= <-]. left. exists q. split; auto.
      now apply rarity_label_values.
  - intros q H H0 H1 H2. rewrite H. unfold rarity_label.
    destruct (Qeq_bool q 0) eqn:E0; [apply Qeq_bool_eq in E0; tauto|].
    destruct (Qeq_bool q 1) eqn:E1; [apply Qeq_bool_eq in E1; tauto|].
    destruct (Qeq_bool q 2) eqn:E2; [apply Qeq_bool_eq in E2; tauto|].
    reflexivity.
  - intros s H. now rewrite H.
Qed.

Lemma Scroll_init_texts d scroll :
  Scroll_init (JObj d) = Ok scroll ->
  dict_get d "description" = Some (_description scroll) /\
  dict_get d "flavor" = Some (_flavor scroll) /\
  dict_get d "types" = Some (_types scroll) /\
  dict_get d "kind" = Some (_kind scroll).
Proof.
  intros Hinit. unfold Scroll_init, subscript, get_default, getitem in Hinit.
  repeat match type of Hinit with
         | context [bind (match dict_get d ?k with _ => _ end)] =>
             destruct (dict_get d k) eqn:?; cbn [bind] in Hinit;
             [|discriminate Hinit]
         end.
  injection Hinit as <-. cbn. auto.
Qed.

(** X20: the constructor does not look at what the fields hold.  A record
    whose [description], [flavor], [types] or [kind] is null, a number, a
    boolean, a list or an object is accepted, and it is the property that
    raises [AttributeError] when it is read. *)
Theorem X20_text_properties_need_a_string d scroll :
  Scroll_init (JObj d) = Ok scroll ->
  (forall v, dict_get d "description" = Some v -> (forall s, v <> JStr s) ->
             description scroll = Raise AttributeError) /\
  (forall v, dict_get d "flavor" = Some v -> (forall s, v <> JStr s) ->
             flavor scroll = Raise AttributeError) /\
  (forall v, dict_get d "types" = Some v -> (forall s, v <> JStr s) ->
             types scroll = Raise AttributeError) /\
  (forall v, dict_get d "kind" = Some v -> (forall s, v <> JStr s) ->
             kind scroll = Raise AttributeError).
Proof.
  intros Hinit. destruct (@Scroll_init_texts d scroll Hinit) as (Hd & Hf & Ht & Hk).
  unfold description, flavor, types, kind, str_method.
  repeat split; intros v Hv Hns;
    match goal with
    | |- context [as_str ?x] =>
        replace x with v by congruence;
        destruct v as [| | |s| |]; auto; now destruct (Hns s)
    end.
Qed.

(** * Worked instances of the further properties *)

Lemma X2_foo_fon_witness :
  get_by_name sample_ratio (serve foo_fon) "Fon" 100 fresh
  = (lookup sample_ratio (catalog (serve foo_fon) 0) (lower "Fon") 100,
     mkCls (Some (catalog (serve foo_fon) 0)) 1)
  /\ get_by_name sample_ratio (serve foo_fon) "fo" default_threshold
       (mkCls (Some (catalog (serve foo_fon) 0)) 1)
     = (lookup sample_ratio (catalog (serve foo_fon) 0) (lower "fo")
          default_threshold,
        mkCls (Some (catalog (serve foo_fon) 0)) 1).
Proof.
  destruct (@X2_loaded_cache_is_reused sample_ratio (serve foo_fon) "Fon" 100
              fresh eq_refl eq_refl) as (H1 & H2).
  split; [exact H1|apply H2].
Defined.

Lemma X3_no_match_witness :
  fst (get_by_name sample_ratio (serve foo_fon) "anything" 70 foo_fon_loaded)
  = Raise ValueError.
Proof.
  destruct (@X3_outcomes_on_a_set_cache sample_ratio (serve foo_fon)
              [("foo", sample_scroll 1 "Foo"); ("fon", sample_scroll 2 "Fon")]
              "anything" 70 foo_fon_loaded eq_refl)
    as [(key & r & H & _)|[(H & _)|(names & H & _)]].
  - vm_compute in H. discriminate.
  - now rewrite H.
  - vm_compute in H. discriminate.
Defined.

Lemma X4_lower_threshold_witness :
  dict_get (name_scores sample_ratio
              [("foo", sample_scroll 1 "Foo"); ("fon", sample_scroll 2 "Fon")]
              "fo" default_threshold) "fon"
  = Some 100.
Proof.
  apply (@X4_threshold_monotone sample_ratio
           [("foo", sample_scroll 1 "Foo"); ("fon", sample_scroll 2 "Fon")]
           "fo" default_threshold 70 "fon" 100).
  - unfold Qle, default_threshold. simpl. lia.
  - reflexivity.
Defined.

Lemma X5_bare_record_witness :
  get_by_name sample_ratio (serve foo_bare_fon) "Fon" default_threshold fresh
  = (Raise (KeyError "description"),
     mkCls (Some [("foo", sample_scroll 1 "Foo")]) 1)
  /\ get_by_name sample_ratio (serve foo_bare_fon) "Fon" default_threshold
       (mkCls (Some [("foo", sample_scroll 1 "Foo")]) 1)
     = (Ok (sample_scroll 1 "Foo"),
        mkCls (Some [("foo", sample_scroll 1 "Foo")]) 1).
Proof.
  destruct (@X5_bad_record_leaves_partial_cache sample_ratio
              (serve foo_bare_fon)
              [("data", JArr [record 1 "Foo"; bare_record; record 2 "Fon"])]
              [record 1 "Foo"] bare_record [record 2 "Fon"]
              [("foo", sample_scroll 1 "Foo")] (KeyError "description")
              "Fon" default_threshold fresh
              eq_refl eq_refl eq_refl eq_refl eq_refl) as (H1 & H2).
  split; [exact H1|]. exact (H2 "Fon" default_threshold).
Defined.

Lemma X7_foo_fon_witness :
  MultipleScrollsFound_str [JStr "Foo"; JStr "Fon"] "fo"
  = Ok "Multiple scrolls match 'fo'z: Foo, Fon".
Proof.
  destruct (@X7_ambiguity_message_is_defined sample_ratio (serve foo_fon)
              [("foo", sample_scroll 1 "Foo"); ("fon", sample_scroll 2 "Fon")]
              "FO" default_threshold foo_fon_loaded
              [JStr "Foo"; JStr "Fon"] "fo" foo_fon_loaded)
    as (strs & Hnames & _ & Hmsg).
  - reflexivity.
  - repeat constructor; simpl; eauto.
  - reflexivity.
  - destruct strs as [|a [|b [|c strs]]]; try discriminate.
    injection Hnames as <- <-. exact Hmsg.
Defined.

Lemma X8_json_list_witness :
  get_by_name sample_ratio (serve (JArr [])) "Foo" default_threshold fresh
  = (Raise AttributeError, mkCls (Some []) 1)
  /\ get_by_name sample_ratio (serve (JArr [])) "Foo" default_threshold
       (mkCls (Some []) 1)
     = (Raise ValueError, mkCls (Some []) 1).
Proof.
  destruct (@X8_non_object_document_empties_the_cache sample_ratio
              (serve (JArr [])) (JArr []) "Foo" default_threshold fresh)
    as (H1 & H2).
  - reflexivity.
  - reflexivity.
  - discriminate.
  - split; [exact H1|apply H2].
Defined.

Lemma X9_no_data_member_witness :
  get_by_name sample_ratio (serve (JObj [("count", JNum 0)])) "Foo"
    default_threshold fresh
  = (Raise ValueError, mkCls (Some []) 1).
Proof.
  apply (@X9_missing_data_member_is_empty_catalog sample_ratio
           (serve (JObj [("count", JNum 0)])) [("count", JNum 0)] "Foo"
           default_threshold fresh); reflexivity.
Defined.

Lemma X10_foo_fon_order_witness :
  closest_items
    (name_scores sample_ratio
       [("foo", sample_scroll 1 "Foo"); ("fon", sample_scroll 2 "Fon")]
       "fo" default_threshold) 100
  = ["foo"; "fon"].
Proof.
  rewrite (@X10_tied_names_keep_cache_order sample_ratio
             [("foo", sample_scroll 1 "Foo"); ("fon", sample_scroll 2 "Fon")]
             "fo" default_threshold 100).
  - reflexivity.
  - repeat constructor; simpl; intuition discriminate.
Defined.

Lemma X11_ember_witness :
  exists out,
    description ember = Ok out /\ occurs "<" out = false /\
    occurs "]" out = false.
Proof.
  destruct (@X11_description_has_no_markup ember
              "<b>Deal</b> [2] damage\nto a unit" eq_refl)
    as (out & H & Hlt & _ & _ & Hbr & _).
  exists out. auto.
Defined.

Lemma X12_ember_witness :
  exists out,
    flavor ember = Ok out /\ contains "\n" out = false /\
    starts_with "n" out = false.
Proof.
  destruct (@X12_flavor_has_no_escape_and_no_leading_n ember
              "\nnever again\nor so" eq_refl)
    as (out & H & Hesc & _ & Hn).
  exists out. auto.
Defined.

Lemma X13_ember_witness :
  exists out, types ember = Ok out /\ commas_spaced out = true.
Proof.
  destruct (@X13_types_commas_are_spaced ember "Spell,Fire" eq_refl)
    as (out & H & Hsp & _).
  exists out. auto.
Defined.

Lemma X14_ember_witness :
  exists out, kind ember = Ok out /\ lower out = "spell".
Proof.
  destruct (@X14_kind_is_capitalized ember "SPELL" eq_refl eq_refl)
    as (out & H & Hlow & _).
  exists out. auto.
Defined.

Lemma X15_foo_witness : passive_rules (sample_scroll 1 "Foo") = Ok "".
Proof.
  apply (proj1 (@X15_passive_rules_default_and_brackets foo_members
                  (sample_scroll 1 "Foo") eq_refl)).
  reflexivity.
Defined.

Lemma X16_ember_witness :
  exists quoted,
    image_url ember
    = Ok ("https://a.scrollsguide.com/image/screen?name=" ++ quoted
          ++ "&size=small") /\
    occurs "&" quoted = false.
Proof.
  destruct (@X16_image_url_quotes_the_name ember "Burn & Fury" eq_refl)
    as (quoted & H & _ & _ & Hamp & _).
  exists quoted. auto.
Defined.

Example ember_texts :
  description ember
  = Ok ("bDeal/b 2 damage" ++ newline ++ "to a unit") /\
  flavor ember = Ok ("ever again" ++ newline ++ "or so") /\
  types ember = Ok "Spell, Fire" /\
  kind ember = Ok "Spell" /\
  passive_rules ember = Ok "Haste" /\
  image_url ember
  = Ok "https://a.scrollsguide.com/image/screen?name=Burn+%26+Fury&size=small".
Proof. repeat split. Qed.

Lemma X20_null_flavor_witness :
  Scroll_init (JObj null_flavor_members) = Ok null_flavor_scroll /\
  flavor null_flavor_scroll = Raise AttributeError.
Proof.
  split; [reflexivity|].
  apply (proj1 (proj2 (@X20_text_properties_need_a_string null_flavor_members
                         null_flavor_scroll eq_refl)) JNull).
  - reflexivity.
  - discriminate.
Defined.
